(** * obsidian-git-auto-commit-only: the scheduler and the commit routine

    A shallow embedding of [src/main.ts].  JavaScript strings are lists of
    UTF-16 code units, JavaScript numbers are IEEE 754 binary64 values
    ([spec_float] at precision 53), and the plugin's asynchronous methods are
    computations in a small state-and-exception monad over a record holding
    the plugin's fields together with what the host observes (notices, the
    console, the calls of [exec], window timers, the persisted blob). *)

From Stdlib Require Import ZArith NArith List String Ascii Bool Lia DecimalString.
From Stdlib Require Import Floats.SpecFloat.
From stdpp Require Import base option list gmap.

Local Open Scope N_scope.

(** ** JavaScript strings *)

Module JsString.

(** A string value: its sequence of UTF-16 code units. *)
Abbreviation jsstring := (list N).

(** An ASCII literal of the source, one code unit per character. *)
Fixpoint lit (s : string) : jsstring :=
  match s with
  | EmptyString => []
  | String c rest => N_of_ascii c :: lit rest
  end.

(** The code unit of the double quote character. *)
Definition dquote : N := 34.
Definition backslash : N := 92.

(** ECMAScript WhiteSpace and LineTerminator code points, the characters
    [String.prototype.trim] strips. *)
Definition is_whitespace (c : N) : bool :=
  existsb (N.eqb c)
    [ 9; 10; 11; 12; 13; 32; 160; 5760;
      8192; 8193; 8194; 8195; 8196; 8197; 8198; 8199; 8200; 8201; 8202;
      8232; 8233; 8239; 8287; 12288; 65279 ].

Fixpoint trimStart (s : jsstring) : jsstring :=
  match s with
  | c :: rest => if is_whitespace c then trimStart rest else s
  | [] => []
  end.

Definition trimEnd (s : jsstring) : jsstring := rev (trimStart (rev s)).

(** [s.trim()] *)
Definition trim (s : jsstring) : jsstring := trimEnd (trimStart s).

(** [s.slice(from, to)] for non-negative integer arguments; both ends are
    clamped to the length of [s]. *)
Definition slice (from to : nat) (s : jsstring) : jsstring :=
  take (to - from) (drop from s).

(** [s.padStart(target, pad)] *)
Fixpoint repeat_to (n : nat) (pad cur : jsstring) (fuel : nat) : jsstring :=
  match n, fuel with
  | O, _ => []
  | _, O => []
  | S n', S fuel' =>
      match cur with
      | c :: cur' => c :: repeat_to n' pad cur' fuel'
      | [] =>
          match pad with
          | c :: pad' => c :: repeat_to n' pad pad' fuel'
          | [] => []
          end
      end
  end.

Definition padStart (target : nat) (pad s : jsstring) : jsstring :=
  if (target <=? length s)%nat then s
  else
    let fill := (target - length s)%nat in
    repeat_to fill pad pad fill ++ s.

(** [s.replace(/"/g, '\\"')]: every double quote gets a backslash in
    front of it. *)
Fixpoint escape_dquotes (s : jsstring) : jsstring :=
  match s with
  | [] => []
  | c :: rest =>
      if c =? dquote then backslash :: dquote :: escape_dquotes rest
      else c :: escape_dquotes rest
  end.

(** The Canonicalize step of a case-insensitive, non-unicode regular
    expression, on the ASCII range: a lower-case letter is compared as
    its upper-case form.  A code unit of 128 or more never canonicalizes
    to an ASCII one (ECMAScript leaves it unchanged when its upper case
    would be ASCII), so against an all-ASCII pattern only this folding
    decides a match. *)
Definition canonicalize (c : N) : N :=
  if (97 <=? c) && (c <=? 122) then c - 32 else c.

(** The pattern matches at the head of the subject. *)
Fixpoint match_here (pat s : jsstring) : bool :=
  match pat, s with
  | [], _ => true
  | _ :: _, [] => false
  | p :: pat', c :: s' =>
      (canonicalize p =? canonicalize c) && match_here pat' s'
  end.

(** [/pat/i.test(s)] for a pattern of literal characters: the pattern
    matches at some position of the subject. *)
Fixpoint regex_test_i (pat s : jsstring) : bool :=
  match_here pat s ||
  match s with
  | [] => false
  | _ :: s' => regex_test_i pat s'
  end.

(** Decimal digits of an integer, as [Number.prototype.toString] prints
    an integral Number of moderate size. *)
Definition int_toString (z : Z) : jsstring :=
  lit (NilZero.string_of_int (Z.to_int z)).

End JsString.
Import JsString.

(** ** JavaScript numbers *)

Module JsNumber.

(** A Number value: an IEEE 754 binary64 float. *)
Abbreviation jsnumber := spec_float.

Definition prec : Z := 53.
Definition emax : Z := 1024.

(** The Number of an integer literal of the source. *)
Definition of_Z (z : Z) : jsnumber := binary_normalize prec emax z 0 false.

Definition NaN : jsnumber := S754_nan.
Definition Infinity : jsnumber := S754_infinity false.

(** [isFinite(x)] *)
Definition isFinite (x : jsnumber) : bool :=
  match x with
  | S754_zero _ | S754_finite _ _ _ => true
  | S754_infinity _ | S754_nan => false
  end.

(** [x * y], [x <= y], [x >= y], [x > y] *)
Definition mul (x y : jsnumber) : jsnumber := SFmul prec emax x y.
Definition le (x y : jsnumber) : bool := SFleb x y.
Definition ge (x y : jsnumber) : bool := SFleb y x.
Definition gt (x y : jsnumber) : bool := SFltb y x.

(** [Math.round(x)]: the integral Number closest to [x], a tie going to
    the larger one; a zero result keeps the sign of [x].  For the value
    [(-1)^s * m * 2^e] with [e < 0] this is [floor (x + 1/2)], computed
    exactly on integers. *)
Definition Math_round (x : jsnumber) : jsnumber :=
  match x with
  | S754_finite s m e =>
      if (0 <=? e)%Z then x
      else
        let d := (2 ^ (- e))%Z in
        let sm := (if s then Z.neg m else Z.pos m) in
        let n := ((2 * sm + d) / (2 * d))%Z in
        if (n =? 0)%Z then S754_zero s else of_Z n
  | _ => x
  end.

(** [Math.max(x, y)]: NaN if either is NaN, and +0 is larger than -0. *)
Definition Math_max (x y : jsnumber) : jsnumber :=
  match SFcompare x y with
  | None => NaN
  | Some Lt => y
  | Some Gt => x
  | Some Eq =>
      match x, y with
      | S754_zero true, S754_zero false => y
      | _, _ => x
      end
  end.

(** The integer a finite integral Number denotes, for reading results. *)
Definition to_Z (x : jsnumber) : option Z :=
  match x with
  | S754_zero _ => Some 0%Z
  | S754_finite s m e =>
      if (0 <=? e)%Z
      then Some ((if s then Z.neg m else Z.pos m) * 2 ^ e)%Z
      else
        let d := (2 ^ (- e))%Z in
        if (Z.pos m mod d =? 0)%Z
        then Some ((if s then Z.neg m else Z.pos m) / d)%Z
        else None
  | _ => None
  end.

End JsNumber.
Import JsNumber.

(** ** Values the routine can catch *)

(** An [Error] instance: its [name] and [message]. *)
Record JsError := { err_name : jsstring; err_message : jsstring }.

(** What a [catch] clause of the plugin can receive: the plain object
    [{ error, stdout, stderr }] that [run] rejects with, or an [Error]
    instance thrown while [exec] was being called. *)
Inductive thrown :=
| RunRejection (error : JsError) (stdout stderr : jsstring)
| ErrorValue (err : JsError).

(** [(e?.stdout ?? '').toString()] and [(e?.stderr ?? '').toString()] *)
Definition stdout_of (e : thrown) : jsstring :=
  match e with
  | RunRejection _ out _ => out
  | ErrorValue _ => []
  end.

Definition stderr_of (e : thrown) : jsstring :=
  match e with
  | RunRejection _ _ err => err
  | ErrorValue _ => []
  end.

(** [e?.message]: the rejection object of [run] has no such property. *)
Definition message_of (e : thrown) : option jsstring :=
  match e with
  | RunRejection _ _ _ => None
  | ErrorValue err => Some (err_message err)
  end.

(** [String(e)]: [Object.prototype.toString] for the plain object,
    [Error.prototype.toString] for an [Error]. *)
Definition String_of (e : thrown) : jsstring :=
  match e with
  | RunRejection _ _ _ => lit "[object Object]"
  | ErrorValue err =>
      match err_name err, err_message err with
      | [], msg => msg
      | name, [] => name
      | name, msg => name ++ lit ": " ++ msg
      end
  end.

(** A string is truthy when it is not empty; [undefined] is falsy. *)
Definition truthy (s : jsstring) : bool :=
  match s with [] => false | _ :: _ => true end.

(** [(stderr || stdout || e?.message || String(e)).trim()], the text both
    [catch] clauses of [commitAndPush] compute. *)
Definition diagnostic (e : thrown) : jsstring :=
  let stdout := stdout_of e in
  let stderr := stderr_of e in
  trim
    (if truthy stderr then stderr
     else if truthy stdout then stdout
     else match message_of e with
          | Some m => if truthy m then m else String_of e
          | None => String_of e
          end).

(** [/nothing to commit/i.test(String(msg))] *)
Definition nothing_to_commit (msg : jsstring) : bool :=
  regex_test_i (lit "nothing to commit") msg.

(** ** The host and the plugin's state *)

(** [app.vault.adapter]: a [FileSystemAdapter] with its base path, or some
    other adapter. *)
Inductive Adapter :=
| FileSystemAdapter (basePath : jsstring)
| OtherAdapter.

(** The local-time fields [buildCommitMessage] reads off [new Date()]. *)
Record Date := {
  getMonth : Z;
  getDate : Z;
  getFullYear : Z;
  getHours : Z;
  getMinutes : Z
}.

(** How a call of [child_process.exec] ends: the callback is invoked with
    [(error, stdout, stderr)], [error] being [null] on a zero exit, or the
    call itself throws. *)
Inductive exec_outcome :=
| Callback (error : option JsError) (stdout stderr : jsstring)
| SyncThrow (err : JsError).

(** What the routine reads from its surroundings during one activation. *)
Record Host := {
  adapter : Adapter;
  now : Date;
  exec : jsstring -> jsstring -> exec_outcome;
  saveData_failure : option JsError
}.

Record Settings := { intervalMinutes : jsnumber }.

Definition DEFAULT_SETTINGS : Settings := {| intervalMinutes := of_Z 5 |}.

(** The plugin's fields ([settings], [isRunning], [autoIntervalHandle])
    and what the host has seen so far: notices shown, values logged with
    [console.error], subprocesses started with [exec] (command and working directory),
    the window's interval timers of this plugin (handle to delay argument),
    handles passed to [registerInterval], and the persisted settings. *)
Record World := {
  settings : Settings;
  isRunning : bool;
  autoIntervalHandle : option nat;
  notices : list jsstring;
  console_errors : list thrown;
  exec_calls : list (jsstring * jsstring);
  timers : gmap nat jsnumber;
  next_handle : nat;
  registered : list nat;
  persisted : option Settings
}.

Definition initial_world : World :=
  {| settings := DEFAULT_SETTINGS; isRunning := false;
     autoIntervalHandle := None; notices := []; console_errors := [];
     exec_calls := []; timers := ∅; next_handle := 1%nat; registered := [];
     persisted := None |}.

Definition set_settings (s : Settings) (w : World) : World :=
  {| settings := s; isRunning := isRunning w;
     autoIntervalHandle := autoIntervalHandle w; notices := notices w;
     console_errors := console_errors w; exec_calls := exec_calls w;
     timers := timers w; next_handle := next_handle w;
     registered := registered w; persisted := persisted w |}.

Definition set_isRunning (b : bool) (w : World) : World :=
  {| settings := settings w; isRunning := b;
     autoIntervalHandle := autoIntervalHandle w; notices := notices w;
     console_errors := console_errors w; exec_calls := exec_calls w;
     timers := timers w; next_handle := next_handle w;
     registered := registered w; persisted := persisted w |}.

Definition set_autoIntervalHandle (h : option nat) (w : World) : World :=
  {| settings := settings w; isRunning := isRunning w;
     autoIntervalHandle := h; notices := notices w;
     console_errors := console_errors w; exec_calls := exec_calls w;
     timers := timers w; next_handle := next_handle w;
     registered := registered w; persisted := persisted w |}.

Definition add_notice (text : jsstring) (w : World) : World :=
  {| settings := settings w; isRunning := isRunning w;
     autoIntervalHandle := autoIntervalHandle w;
     notices := notices w ++ [text];
     console_errors := console_errors w; exec_calls := exec_calls w;
     timers := timers w; next_handle := next_handle w;
     registered := registered w; persisted := persisted w |}.

Definition add_console_error (e : thrown) (w : World) : World :=
  {| settings := settings w; isRunning := isRunning w;
     autoIntervalHandle := autoIntervalHandle w; notices := notices w;
     console_errors := console_errors w ++ [e]; exec_calls := exec_calls w;
     timers := timers w; next_handle := next_handle w;
     registered := registered w; persisted := persisted w |}.

Definition add_exec_call (command cwd : jsstring) (w : World) : World :=
  {| settings := settings w; isRunning := isRunning w;
     autoIntervalHandle := autoIntervalHandle w; notices := notices w;
     console_errors := console_errors w;
     exec_calls := exec_calls w ++ [(command, cwd)];
     timers := timers w; next_handle := next_handle w;
     registered := registered w; persisted := persisted w |}.

Definition set_timers (t : gmap nat jsnumber) (next : nat) (w : World) : World :=
  {| settings := settings w; isRunning := isRunning w;
     autoIntervalHandle := autoIntervalHandle w; notices := notices w;
     console_errors := console_errors w; exec_calls := exec_calls w;
     timers := t; next_handle := next;
     registered := registered w; persisted := persisted w |}.

Definition add_registered (h : nat) (w : World) : World :=
  {| settings := settings w; isRunning := isRunning w;
     autoIntervalHandle := autoIntervalHandle w; notices := notices w;
     console_errors := console_errors w; exec_calls := exec_calls w;
     timers := timers w; next_handle := next_handle w;
     registered := registered w ++ [h]; persisted := persisted w |}.

Definition set_persisted (s : Settings) (w : World) : World :=
  {| settings := settings w; isRunning := isRunning w;
     autoIntervalHandle := autoIntervalHandle w; notices := notices w;
     console_errors := console_errors w; exec_calls := exec_calls w;
     timers := timers w; next_handle := next_handle w;
     registered := registered w; persisted := Some s |}.

(** ** Computations of the plugin *)

(** How a method ends: it returns a value, or a value is thrown (for an
    [async] method: its promise is fulfilled or rejected). *)
Inductive completion (A : Type) :=
| Normal (a : A)
| Throw (e : thrown).
Arguments Normal {A} a.
Arguments Throw {A} e.

(** A method reads the host, updates the world and completes. *)
Definition M (A : Type) : Type := Host -> World -> completion A * World.

#[global] Instance M_ret : MRet M := fun A a _ w => (Normal a, w).

#[global] Instance M_bind : MBind M := fun A B k m h w =>
  match m h w with
  | (Normal a, w') => k a h w'
  | (Throw e, w') => (Throw e, w')
  end.

#[global] Instance M_throw : MThrow thrown M := fun A e _ w => (Throw e, w).

(** [try { body } catch (e) { handler }] *)
Definition try_catch {A} (body : M A) (handler : thrown -> M A) : M A :=
  fun h w =>
    match body h w with
    | (Normal a, w') => (Normal a, w')
    | (Throw e, w') => handler e h w'
    end.

(** [try { body } finally { cleanup }], for a cleanup that neither returns
    nor throws by itself. *)
Definition try_finally {A} (body : M A) (cleanup : World -> World) : M A :=
  fun h w => let '(c, w') := body h w in (c, cleanup w').

Definition gets {A} (f : World -> A) : M A := fun _ w => (Normal (f w), w).
Definition asks {A} (f : Host -> A) : M A := fun h w => (Normal (f h), w).
Definition modify (f : World -> World) : M unit := fun _ w => (Normal tt, f w).

(** [new Notice(text)] and [console.error('[GitAutoCommitOnly]', e)] *)
Definition Notice (text : jsstring) : M unit := modify (add_notice text).
Definition console_error (e : thrown) : M unit := modify (add_console_error e).

(** [window.clearInterval], [window.setInterval] (the callback is always
    the one of [reschedule], so a timer is its delay argument) and the
    host's [registerInterval]. *)
Definition clearInterval (handle : nat) : M unit :=
  modify (fun w => set_timers (delete handle (timers w)) (next_handle w) w).

Definition setInterval (ms : jsnumber) : M nat :=
  fun _ w =>
    let handle := next_handle w in
    (Normal handle, set_timers (<[handle := ms]> (timers w)) (S handle) w).

Definition registerInterval (handle : nat) : M unit :=
  modify (add_registered handle).

(** *** [reschedule] *)

(** The delay computed from a positive finite interval:
    [Math.max(10_000, Math.round(minutes * 60 * 1000))]. *)
Definition period_ms (minutes : jsnumber) : jsnumber :=
  Math_max (of_Z 10000) (Math_round (mul (mul minutes (of_Z 60)) (of_Z 1000))).

(** The setting is typed as a number, on which [Number(...)] is the
    identity. *)
Definition reschedule : M unit :=
  old ← gets autoIntervalHandle;
  match old with
  | Some handle =>
      clearInterval handle;;
      modify (set_autoIntervalHandle None)
  | None => mret tt
  end;;
  minutes ← gets (fun w => intervalMinutes (settings w));
  if negb (isFinite minutes) || le minutes (of_Z 0) then mret tt
  else
    let ms := period_ms minutes in
    handle ← setInterval ms;
    modify (set_autoIntervalHandle (Some handle));;
    registerInterval handle.

(** *** [buildCommitMessage] *)

Definition commit_message (d : Date) : jsstring :=
  let MM := (getMonth d + 1)%Z in
  let DD := getDate d in
  let YYYY := getFullYear d in
  let hh := getHours d in
  let mm := padStart 2 (lit "0") (int_toString (getMinutes d)) in
  lit "auto commit at " ++ int_toString MM ++ lit "-" ++ int_toString DD
    ++ lit "-" ++ int_toString YYYY ++ lit " " ++ int_toString hh
    ++ lit ":" ++ mm.

Definition buildCommitMessage : M jsstring := asks (fun h => commit_message (now h)).

(** *** [run] *)

(** The promise [run] builds settles by the callback it gives to [exec]:
    rejected with [{ error, stdout, stderr }] when [error] is set, resolved
    with [{ stdout, stderr }] otherwise; an exception of [exec] inside the
    promise executor rejects it with that exception. *)
Definition settle (o : exec_outcome) : completion (jsstring * jsstring) :=
  match o with
  | Callback (Some error) stdout stderr =>
      Throw (RunRejection error stdout stderr)
  | Callback None stdout stderr => Normal (stdout, stderr)
  | SyncThrow err => Throw (ErrorValue err)
  end.

Definition run (command cwd : jsstring) : M (jsstring * jsstring) :=
  fun h w => (settle (exec h command cwd), add_exec_call command cwd w).

(** *** [getVaultPath] *)

Definition getVaultPath : M (option jsstring) :=
  asks (fun h =>
          match adapter h with
          | FileSystemAdapter basePath => Some basePath
          | OtherAdapter => None
          end).

(** *** [commitAndPush] *)

Definition verify_command : jsstring := lit "git rev-parse --is-inside-work-tree".
Definition stage_command : jsstring := lit "git add -A".
Definition push_command : jsstring := lit "git push".

(** [`git commit -m "${msg.replace(/"/g, '\\"')}"`] *)
Definition commit_command (msg : jsstring) : jsstring :=
  lit "git commit -m " ++ [dquote] ++ escape_dquotes msg ++ [dquote].

(** The [catch] clause around the commit step. *)
Definition commit_handler (e : thrown) : M unit :=
  let msg := diagnostic e in
  if negb (nothing_to_commit msg) then mthrow e else mret tt.

(** The outer [catch] clause; the [code] it also computes is not used. *)
Definition failure_handler (e : thrown) : M unit :=
  let msg := diagnostic e in
  Notice (lit "only commit: Error" ++ [10] ++ slice 0 400 msg);;
  console_error e.

(** The [try] block; the early [return] of the desktop guard is the first
    branch of the conditional. *)
Definition cycle : M unit :=
  cwd ← getVaultPath;
  match cwd return M unit with
  | None | Some [] => Notice (lit "Available on desktop only")
  | Some cwd =>
      run verify_command cwd;;
      msg ← buildCommitMessage;
      run stage_command cwd;;
      try_catch (run (commit_command msg) cwd;; mret tt) commit_handler;;
      run push_command cwd;;
      mret tt
  end.

(** One activation, from its call to the settlement of its promise.  What
    other callbacks do while it is suspended at an [await] is not part of
    it: a timer tick is skipped and a click ends at the busy guard, neither
    touching the flag. *)
Definition commitAndPush : M unit :=
  running ← gets isRunning;
  if running : bool then Notice (lit "only commit: already running")
  else
    modify (set_isRunning true);;
    try_finally (try_catch cycle failure_handler) (set_isRunning false).

(** The callback [reschedule] hands to [setInterval]; the rejection of
    [commitAndPush] is discarded by [.catch(() => { })]. *)
Definition timer_tick : M unit :=
  running ← gets isRunning;
  if negb running then try_catch commitAndPush (fun _ => mret tt)
  else mret tt.

(** *** The settings tab *)

(** [saveSettings]: the host's [saveData] stores the settings, or rejects. *)
Definition saveSettings : M unit :=
  fun h w =>
    match saveData_failure h with
    | None => (Normal tt, set_persisted (settings w) w)
    | Some err => (Throw (ErrorValue err), w)
    end.

Section SettingTab.

(** The built-in [parseFloat]. *)
Variable parseFloat : jsstring -> jsnumber.

(** [isFinite(n) && n >= 0 ? n : 0] *)
Definition coerce_interval (n : jsnumber) : jsnumber :=
  if isFinite n && ge n (of_Z 0) then n else of_Z 0.

(** The [onChange] callback of the interval field. *)
Definition onChange (value : jsstring) : M unit :=
  let n := parseFloat value in
  modify (set_settings {| intervalMinutes := coerce_interval n |});;
  saveSettings;;
  reschedule.

End SettingTab.

(** *** [loadSettings], [onload] and the ribbon icon *)

(** What [loadData] resolves with when it is not [null]: an object that
    has an [intervalMinutes] key holding a Number, or has no such key.
    Stored data whose [intervalMinutes] is not a Number is outside this
    model, the [settings] field being typed as a number. *)
Record DataBlob := { stored_intervalMinutes : option jsnumber }.

(** [Object.assign({}, DEFAULT_SETTINGS, data)]: a key of [data] replaces
    the default, and a [null] source is skipped. *)
Definition merged_settings (data : option DataBlob) : Settings :=
  match data with
  | Some {| stored_intervalMinutes := Some v |} => {| intervalMinutes := v |}
  | Some {| stored_intervalMinutes := None |} | None => DEFAULT_SETTINGS
  end.

(** [loadSettings], given how the host's [loadData] settles. *)
Definition loadSettings (loadData : completion (option DataBlob)) : M unit :=
  fun _ w =>
    match loadData with
    | Normal data => (Normal tt, set_settings (merged_settings data) w)
    | Throw e => (Throw e, w)
    end.

(** The callback of the ribbon icon. *)
Definition ribbon_click : M unit :=
  try_catch commitAndPush (fun _ => mret tt).

(** [addRibbonIcon] and [addSettingTab] hand a callback and a tab to the
    host; they run neither and leave every field of the world alone. *)
Definition addRibbonIcon : M unit := mret tt.
Definition addSettingTab : M unit := mret tt.

(** What a call of [commitAndPush] does before it returns its promise,
    that is up to its first [await]: the busy guard, the flag, the vault
    path and the call of [exec] for the verify step.  The result is the
    working directory when the routine is left suspended on that step, and
    [None] when it has already ended (busy guard or desktop guard, the
    [finally] clause having run in the latter case). *)
Definition commitAndPush_until_await : M (option jsstring) :=
  running ← gets isRunning;
  if running : bool
  then Notice (lit "only commit: already running");; mret None
  else
    modify (set_isRunning true);;
    cwd ← getVaultPath;
    match cwd return M (option jsstring) with
    | None | Some [] =>
        Notice (lit "Available on desktop only");;
        modify (set_isRunning false);;
        mret None
    | Some cwd =>
        modify (add_exec_call verify_command cwd);;
        mret (Some cwd)
    end.

(** [onload], up to the settlement of its promise: the first cycle is
    started without being awaited, so only the part of it that runs before
    its first [await] belongs to [onload]. *)
Definition onload (loadData : completion (option DataBlob)) : M unit :=
  loadSettings loadData;;
  addRibbonIcon;;
  addSettingTab;;
  reschedule;;
  commitAndPush_until_await;;
  mret tt.

(** ** Vocabulary of the statements *)

(** A step of the cycle, run in [cwd], resolves or rejects with [e]. *)
Definition step_succeeds (h : Host) (command cwd : jsstring) : Prop :=
  exists r, settle (exec h command cwd) = Normal r.

Definition step_fails (h : Host) (command cwd : jsstring) (e : thrown) : Prop :=
  settle (exec h command cwd) = Throw e.

(** The command line of the commit step for the host's clock. *)
Definition commit_command_of (h : Host) : jsstring :=
  commit_command (commit_message (now h)).

(** The world after the first [n] steps of a cycle have been started. *)
Definition started (n : nat) (h : Host) (cwd : jsstring) (w : World) : World :=
  fold_left (fun w0 command => add_exec_call command cwd w0)
    (take n [verify_command; stage_command; commit_command_of h; push_command])
    w.

(** The notice of the outer [catch] clause for a caught value. *)
Definition error_notice (e : thrown) : jsstring :=
  lit "only commit: Error" ++ [10] ++ slice 0 400 (diagnostic e).

(** [s] contains [pat] when letter case is ignored: some contiguous part
    of [s] equals [pat] after case folding. *)
Definition contains_ignoring_case (pat s : jsstring) : Prop :=
  exists pre mid post,
    s = pre ++ mid ++ post /\ map canonicalize mid = map canonicalize pat.

(** No whitespace character is compared equal to [p] by the pattern test. *)
Definition never_whitespace (p : N) : Prop :=
  forall c, canonicalize c = canonicalize p -> is_whitespace c = false.

(** The text the failure report is built from, in the order the
    specification gives: stderr if non-empty, else stdout if non-empty,
    else the caught value's own message, else its string form. *)
Inductive chosen_text (e : thrown) : jsstring -> Prop :=
| chosen_stderr :
    stderr_of e <> [] -> chosen_text e (stderr_of e)
| chosen_stdout :
    stderr_of e = [] -> stdout_of e <> [] -> chosen_text e (stdout_of e)
| chosen_message m :
    stderr_of e = [] -> stdout_of e = [] ->
    message_of e = Some m -> m <> [] -> chosen_text e m
| chosen_string_form :
    stderr_of e = [] -> stdout_of e = [] ->
    (message_of e = None \/ message_of e = Some []) ->
    chosen_text e (String_of e).

(** A cycle in [cwd] ends in a failure that is not recovered: the verify,
    stage or push step rejects, or the commit step rejects with a text
    that does not say there was nothing to commit. *)
Inductive unrecovered_failure (h : Host) (cwd : jsstring) : thrown -> Prop :=
| verify_failure e :
    step_fails h verify_command cwd e -> unrecovered_failure h cwd e
| stage_failure e :
    step_succeeds h verify_command cwd ->
    step_fails h stage_command cwd e -> unrecovered_failure h cwd e
| commit_failure e :
    step_succeeds h verify_command cwd ->
    step_succeeds h stage_command cwd ->
    step_fails h (commit_command_of h) cwd e ->
    nothing_to_commit (diagnostic e) = false ->
    unrecovered_failure h cwd e
| push_failure e :
    step_succeeds h verify_command cwd ->
    step_succeeds h stage_command cwd ->
    (step_succeeds h (commit_command_of h) cwd \/
     exists e0, step_fails h (commit_command_of h) cwd e0 /\
                nothing_to_commit (diagnostic e0) = true) ->
    step_fails h push_command cwd e -> unrecovered_failure h cwd e.

(** The decimal digit of a number below ten. *)
Definition digit (n : Z) : N := 48 + Z.to_N n.

(** A number below one hundred written without padding, and written with
    exactly two digits. *)
Definition unpadded (n : Z) : jsstring :=
  if (n <? 10)%Z then [digit n] else [digit (n / 10); digit (n mod 10)].

Definition two_digits (n : Z) : jsstring := [digit (n / 10); digit (n mod 10)].

(** The fields of a [Date] are in the ranges the language guarantees. *)
Definition valid_date (d : Date) : Prop :=
  (0 <= getMonth d <= 11 /\ 1 <= getDate d <= 31 /\
   0 <= getHours d <= 23 /\ 0 <= getMinutes d <= 59)%Z.

(** The window's timers are those the plugin remembers: at most the one
    whose handle is in [autoIntervalHandle]. *)
Definition timers_consistent (w : World) : Prop :=
  match autoIntervalHandle w with
  | Some handle => forall k, k ∈ dom (timers w) -> k = handle
  | None => timers w = ∅
  end.

(** ** Sample hosts *)

(** March 7, 2024 at 9:05 in the morning ([getMonth] counts from zero). *)
Definition march_7_2024 : Date :=
  {| getMonth := 2; getDate := 7; getFullYear := 2024;
     getHours := 9; getMinutes := 5 |}.

Definition command_failed : JsError :=
  {| err_name := lit "Error"; err_message := lit "Command failed" |}.

(** A desktop host on which every command succeeds silently. *)
Definition healthy_host : Host :=
  {| adapter := FileSystemAdapter (lit "/vault"); now := march_7_2024;
     exec := fun _ _ => Callback None [] [];
     saveData_failure := None |}.

(** A desktop host on which one command fails with the given output and
    every other one succeeds. *)
Definition failing_on (command stdout stderr : jsstring) : Host :=
  {| adapter := FileSystemAdapter (lit "/vault"); now := march_7_2024;
     exec := fun c _ =>
       if bool_decide (c = command)
       then Callback (Some command_failed) stdout stderr
       else Callback None [] [];
     saveData_failure := None |}.

(** The commit step finds a clean working tree: git prints its remark on
    stdout and exits with status 1. *)
Definition nothing_to_commit_host : Host :=
  failing_on (commit_command (commit_message march_7_2024))
    (lit "nothing to commit, working tree clean") [].

(** The commit step fails for another reason, reported on stderr. *)
Definition unable_to_auth_host : Host :=
  failing_on (commit_command (commit_message march_7_2024))
    [] (lit "fatal: unable to auth").

Definition unable_to_auth : thrown :=
  RunRejection command_failed [] (lit "fatal: unable to auth").

(** The vault is not a git working tree. *)
Definition not_a_repository_host : Host :=
  failing_on verify_command [] (lit "fatal: not a git repository").

(** The push is rejected by the remote. *)
Definition push_rejected_host : Host :=
  failing_on push_command [] (lit "rejected").

(** A host without a file system adapter. *)
Definition mobile_host : Host :=
  {| adapter := OtherAdapter; now := march_7_2024;
     exec := fun _ _ => Callback None [] [];
     saveData_failure := None |}.

(** The world in the middle of a cycle. *)
Definition busy_world : World := set_isRunning true initial_world.

(** The period as the specification words it, with a single product:
    [max(10000, round(v * 60000))]. *)
Definition claimed_period (v : jsnumber) : jsnumber :=
  Math_max (of_Z 10000) (Math_round (mul v (of_Z 60000))).

(** The Number [0.16675833333333331], that is [0x1.558564a0045e7p-3]. *)
Definition interval_0_16675833333333331 : jsnumber :=
  S754_finite false 0x1558564a0045e7 (-55).

(** A world whose interval setting is the given Number. *)
Definition world_with_interval (v : jsnumber) : World :=
  set_settings {| intervalMinutes := v |} initial_world.

(** A built-in [parseFloat] reduced to the two inputs of the samples. *)
Definition sample_parseFloat (s : jsstring) : jsnumber :=
  if bool_decide (s = lit "5") then of_Z 5
  else if bool_decide (s = lit "-3") then of_Z (-3)
  else NaN.

(** The characters a commit message is made of: letters, digits, the
    space, the hyphen and the colon. *)
Definition message_char (c : N) : bool :=
  (65 <=? c) && (c <=? 90) || (97 <=? c) && (c <=? 122) ||
  (48 <=? c) && (c <=? 57) || (c =? 32) || (c =? 45) || (c =? 58).

(** Every timer of the window has been handed to [registerInterval]. *)
Definition timers_registered (w : World) : Prop :=
  forall k, k ∈ dom (timers w) -> k ∈ registered w.

(** A desktop host whose adapter reports an empty base path. *)
Definition empty_path_host : Host :=
  {| adapter := FileSystemAdapter []; now := march_7_2024;
     exec := fun _ _ => Callback None [] [];
     saveData_failure := None |}.

(** A host whose [saveData] rejects. *)
Definition read_only_host : Host :=
  {| adapter := FileSystemAdapter (lit "/vault"); now := march_7_2024;
     exec := fun _ _ => Callback None [] [];
     saveData_failure := Some command_failed |}.

(** The staging step fails. *)
Definition index_locked_host : Host :=
  failing_on stage_command [] (lit "fatal: Unable to create index.lock").

(** Nothing to commit, and the push is rejected. *)
Definition clean_tree_push_rejected_host : Host :=
  {| adapter := FileSystemAdapter (lit "/vault"); now := march_7_2024;
     exec := fun c _ =>
       if bool_decide (c = commit_command (commit_message march_7_2024))
       then Callback (Some command_failed)
              (lit "nothing to commit, working tree clean") []
       else if bool_decide (c = push_command)
       then Callback (Some command_failed) [] (lit "rejected")
       else Callback None [] [];
     saveData_failure := None |}.

(** A Number that is [+0], a positive finite value or [+Infinity]. *)
Definition nonnegative (x : jsnumber) : Prop :=
  match x with
  | S754_zero false | S754_infinity false | S754_finite false _ _ => True
  | _ => False
  end.

(** The Number [2 ^ -10], a little under a thousandth of a minute, in its
    normal form [2 ^ 52 * 2 ^ -62]. *)
Definition tiny_interval : jsnumber :=
  S754_finite false 4503599627370496 (-62).

(** Stored data with a negative interval, as a hand-edited file can
    hold. *)
Definition negative_blob : DataBlob :=
  {| stored_intervalMinutes := Some (of_Z (-1)) |}.

(** The stderr, stdout and error texts of a caught value put together,
    one after the other; the error text is the message when there is one
    and the string form otherwise. *)
Definition combined_text (e : thrown) : jsstring :=
  stderr_of e ++ stdout_of e ++
  match message_of e with
  | Some m => m
  | None => String_of e
  end.

(** The commit step finds a clean working tree while git also prints a
    warning on stderr. *)
Definition warning_and_clean_tree : thrown :=
  RunRejection command_failed
    (lit "nothing to commit, working tree clean")
    (lit "warning: could not open directory").

Definition warning_and_clean_tree_host : Host :=
  failing_on (commit_command (commit_message march_7_2024))
    (lit "nothing to commit, working tree clean")
    (lit "warning: could not open directory").

(** The message of the error a caught value stands for: the [Error] handed
    to the callback of [exec] for a rejection of [run], the [Error] itself
    otherwise. *)
Definition underlying_message (e : thrown) : jsstring :=
  match e with
  | RunRejection error _ _ => err_message error
  | ErrorValue err => err_message err
  end.

(** The diagnostic text with the error's own message in third place, as
    the failure report is described: stderr if non-empty, else stdout if
    non-empty, else the error's message, else the string form; trimmed. *)
Definition described_diagnostic (e : thrown) : jsstring :=
  trim
    (if truthy (stderr_of e) then stderr_of e
     else if truthy (stdout_of e) then stdout_of e
     else if truthy (underlying_message e) then underlying_message e
     else String_of e).

(** The shell cannot be started: [exec] reports the error through its
    callback, with nothing on stdout and stderr. *)
Definition spawn_enoent : JsError :=
  {| err_name := lit "Error"; err_message := lit "spawn /bin/sh ENOENT" |}.

Definition spawn_failure_host : Host :=
  {| adapter := FileSystemAdapter (lit "/vault"); now := march_7_2024;
     exec := fun _ _ => Callback (Some spawn_enoent) [] [];
     saveData_failure := None |}.


(** The three ways the [try] block can end. *)
Inductive cycle_end (h : Host) (w : World) : completion unit * World -> Prop :=
| cycle_not_started :
    cycle_end h w (Normal tt, add_notice (lit "Available on desktop only") w)
| cycle_thrown cwd n e :
    (1 <= n <= 4)%nat -> cycle_end h w (Throw e, started n h cwd w)
| cycle_finished cwd :
    cycle_end h w (Normal tt, started 4 h cwd w).

(** ** Properties *)

(** *** The shape of an activation *)

Lemma try_catch_cycle_completes h w :
  (try_catch cycle failure_handler h w).1 = Normal tt.
Proof.
  unfold try_catch.
  destruct (cycle h w) as [[[]|e] w']; reflexivity.
Qed.

Lemma commitAndPush_idle h w :
  isRunning w = false ->
  commitAndPush h w =
    (Normal tt,
     set_isRunning false
       (try_catch cycle failure_handler h (set_isRunning true w)).2).
Proof.
  intros Hidle.
  pose proof (try_catch_cycle_completes h (set_isRunning true w)) as Hc.
  unfold commitAndPush, mbind, M_bind, gets, modify, try_finally.
  rewrite Hidle.
  destruct (try_catch cycle failure_handler h (set_isRunning true w)) as [c w'].
  simpl in Hc. subst c. reflexivity.
Qed.

Lemma commitAndPush_busy h w :
  isRunning w = true ->
  commitAndPush h w =
    (Normal tt, add_notice (lit "only commit: already running") w).
Proof.
  intros Hbusy.
  unfold commitAndPush, mbind, M_bind, gets.
  rewrite Hbusy. reflexivity.
Qed.

Section Cycle.

Variables (h : Host) (w : World) (cwd : jsstring).
Hypothesis Hadapter : adapter h = FileSystemAdapter cwd.
Hypothesis Hcwd : cwd <> [].

(** The [try] block, step by step. *)
Lemma cycle_steps :
  cycle h w =
    let push :=
      match settle (exec h push_command cwd) with
      | Throw e => (Throw e, started 4 h cwd w)
      | Normal _ => (Normal tt, started 4 h cwd w)
      end in
    match settle (exec h verify_command cwd) with
    | Throw e => (Throw e, started 1 h cwd w)
    | Normal _ =>
        match settle (exec h stage_command cwd) with
        | Throw e => (Throw e, started 2 h cwd w)
        | Normal _ =>
            match settle (exec h (commit_command_of h) cwd) with
            | Throw e =>
                if nothing_to_commit (diagnostic e) then push
                else (Throw e, started 3 h cwd w)
            | Normal _ => push
            end
        end
    end.
Proof using Hadapter Hcwd.
  unfold cycle, mbind, M_bind, getVaultPath, buildCommitMessage, asks,
    try_catch, run, commit_handler, commit_command_of.
  rewrite Hadapter.
  destruct cwd as [|c cwd']; [congruence|].
  cbv beta iota zeta.
  destruct (settle (exec h verify_command (c :: cwd'))); [|reflexivity].
  destruct (settle (exec h stage_command (c :: cwd'))); [|reflexivity].
  destruct (settle (exec h (commit_command _) (c :: cwd'))) as [r|e]; simpl.
  - destruct (settle (exec h push_command (c :: cwd'))); reflexivity.
  - destruct (nothing_to_commit (diagnostic e)); simpl; [|reflexivity].
    destruct (settle (exec h push_command (c :: cwd'))); reflexivity.
Qed.

End Cycle.

Lemma cycle_no_vault h w :
  getVaultPath h w = (Normal None, w) ->
  cycle h w = (Normal tt, add_notice (lit "Available on desktop only") w).
Proof.
  unfold cycle, mbind, M_bind. intros ->. reflexivity.
Qed.

(** The outer [catch] clause shows one notice, logs the value it caught
    and completes. *)
Lemma failure_handler_effect e h w :
  failure_handler e h w =
    (Normal tt, add_console_error e (add_notice (error_notice e) w)).
Proof. reflexivity. Qed.

(** Facts on the fields of the intermediate worlds. *)
Lemma started_exec_calls n h cwd w :
  exec_calls (started n h cwd w) =
    exec_calls w ++
    map (fun command => (command, cwd))
      (take n [verify_command; stage_command; commit_command_of h; push_command]).
Proof.
  unfold started.
  generalize (take n [verify_command; stage_command; commit_command_of h; push_command]).
  intros l. revert w.
  induction l as [|c l IH]; intros w; simpl.
  - by rewrite app_nil_r.
  - rewrite IH. simpl. by rewrite <- app_assoc.
Qed.

Lemma started_frame n h cwd w :
  let w' := started n h cwd w in
  notices w' = notices w /\ console_errors w' = console_errors w /\
  isRunning w' = isRunning w /\ settings w' = settings w /\
  timers w' = timers w /\ autoIntervalHandle w' = autoIntervalHandle w.
Proof.
  unfold started.
  generalize (take n [verify_command; stage_command; commit_command_of h; push_command]).
  intros l. revert w.
  induction l as [|c l IH]; intros w; simpl; [done|].
  apply (IH (add_exec_call c cwd w)).
Qed.

#[local] Arguments started : simpl never.

(** What an activation that starts idle leaves behind when its [try]
    block throws after [n] steps, and when it runs to its end. *)
Lemma commitAndPush_failed h w cwd n e :
  isRunning w = false ->
  cycle h (set_isRunning true w) = (Throw e, started n h cwd (set_isRunning true w)) ->
  (commitAndPush h w).1 = Normal tt /\
  exec_calls (commitAndPush h w).2 =
    exec_calls w ++
    map (fun command => (command, cwd))
      (take n [verify_command; stage_command; commit_command_of h; push_command]) /\
  notices (commitAndPush h w).2 = notices w ++ [error_notice e] /\
  console_errors (commitAndPush h w).2 = console_errors w ++ [e] /\
  isRunning (commitAndPush h w).2 = false.
Proof.
  intros Hidle Hcycle.
  rewrite (commitAndPush_idle _ _ Hidle).
  unfold try_catch. rewrite Hcycle, failure_handler_effect. simpl.
  pose proof (started_frame n h cwd (set_isRunning true w)) as (Hn & Hc & _).
  rewrite started_exec_calls, Hn, Hc. done.
Qed.

Lemma commitAndPush_succeeded h w cwd :
  isRunning w = false ->
  cycle h (set_isRunning true w) = (Normal tt, started 4 h cwd (set_isRunning true w)) ->
  (commitAndPush h w).1 = Normal tt /\
  exec_calls (commitAndPush h w).2 =
    exec_calls w ++
    map (fun command => (command, cwd))
      [verify_command; stage_command; commit_command_of h; push_command] /\
  notices (commitAndPush h w).2 = notices w /\
  console_errors (commitAndPush h w).2 = console_errors w /\
  isRunning (commitAndPush h w).2 = false.
Proof.
  intros Hidle Hcycle.
  rewrite (commitAndPush_idle _ _ Hidle).
  unfold try_catch. rewrite Hcycle. simpl.
  rewrite <- !app_assoc. done.
Qed.

(** An unrecovered failure is thrown out of the [try] block, after at
    least one step has been started. *)
Lemma unrecovered_failure_thrown h w cwd e :
  adapter h = FileSystemAdapter cwd -> cwd <> [] ->
  unrecovered_failure h cwd e ->
  exists n, (1 <= n <= 4)%nat /\ cycle h w = (Throw e, started n h cwd w).
Proof.
  intros Ha Hc Hfail.
  rewrite (cycle_steps h w cwd Ha Hc). cbv zeta.
  destruct Hfail as
    [e Hv | e [r1 Hv] Hs | e [r1 Hv] [r2 Hs] Hm Hntc
     | e [r1 Hv] [r2 Hs] Hm Hp]; unfold step_fails in *.
  - exists 1%nat. rewrite Hv. split; [lia|done].
  - exists 2%nat. rewrite Hv, Hs. split; [lia|done].
  - exists 3%nat. rewrite Hv, Hs, Hm, Hntc. split; [lia|done].
  - exists 4%nat. rewrite Hv, Hs, Hp. split; [lia|].
    destruct Hm as [[r3 Hm] | (e0 & Hm & Hntc)]; rewrite Hm; [done|].
    by rewrite Hntc.
Qed.

(** *** The busy guard and the final cleanup *)

(** C4: invoked while the run-state flag is set, the routine starts no
    subprocess, shows the one notice "only commit: already running",
    returns normally and leaves the flag, like everything else, as it
    was. *)
Theorem busy_guard_is_noop h w :
  isRunning w = true ->
  commitAndPush h w =
    (Normal tt, add_notice (lit "only commit: already running") w) /\
  exec_calls (commitAndPush h w).2 = exec_calls w /\
  notices (commitAndPush h w).2 =
    notices w ++ [lit "only commit: already running"] /\
  console_errors (commitAndPush h w).2 = console_errors w /\
  isRunning (commitAndPush h w).2 = true.
Proof.
  intros Hbusy. rewrite (commitAndPush_busy _ _ Hbusy). simpl. done.
Qed.

Lemma busy_guard_is_noop_witness :
  isRunning busy_world = true /\
  exec_calls (commitAndPush healthy_host busy_world).2 = [] /\
  notices (commitAndPush healthy_host busy_world).2 =
    [lit "only commit: already running"].
Proof.
  split; [reflexivity|].
  destruct (busy_guard_is_noop healthy_host busy_world eq_refl)
    as (_ & Hexec & Hnotices & _).
  split; [exact Hexec | exact Hnotices].
Defined.

(** C3: an activation that passes the busy guard completes without
    throwing and leaves the run-state flag cleared, whatever the host does
    (no vault path, a failure at any step, or full success); the next
    activation therefore passes the guard and enters its [try] block. *)
Theorem run_state_cleared h w :
  isRunning w = false ->
  (commitAndPush h w).1 = Normal tt /\
  isRunning (commitAndPush h w).2 = false /\
  forall h',
    commitAndPush h' (commitAndPush h w).2 =
      (Normal tt,
       set_isRunning false
         (try_catch cycle failure_handler h'
            (set_isRunning true (commitAndPush h w).2)).2).
Proof.
  intros Hidle.
  assert (isRunning (commitAndPush h w).2 = false) as Hafter
    by (rewrite (commitAndPush_idle _ _ Hidle); reflexivity).
  split; [by rewrite (commitAndPush_idle _ _ Hidle)|].
  split; [exact Hafter|].
  intros h'. by apply commitAndPush_idle.
Qed.

Lemma run_state_cleared_witness :
  isRunning initial_world = false /\
  isRunning (commitAndPush push_rejected_host initial_world).2 = false.
Proof.
  split; [reflexivity|].
  exact (proj1 (proj2 (run_state_cleared push_rejected_host initial_world
                         eq_refl))).
Defined.

(** *** The guards in front of the subprocess work *)

(** C8: when [getVaultPath] returns [null], the routine shows the notice
    "Available on desktop only", starts no subprocess, reports no error
    (no error notice, nothing logged, nothing thrown) and ends with the
    flag cleared. *)
Theorem no_vault_path_aborts h w :
  isRunning w = false ->
  getVaultPath h w = (Normal None, w) ->
  (commitAndPush h w).1 = Normal tt /\
  exec_calls (commitAndPush h w).2 = exec_calls w /\
  notices (commitAndPush h w).2 =
    notices w ++ [lit "Available on desktop only"] /\
  console_errors (commitAndPush h w).2 = console_errors w /\
  isRunning (commitAndPush h w).2 = false.
Proof.
  intros Hidle Hpath.
  rewrite (commitAndPush_idle _ _ Hidle).
  unfold try_catch. rewrite cycle_no_vault; [done|].
  revert Hpath. unfold getVaultPath, asks.
  intros [= Hnone]. by rewrite Hnone.
Qed.

Lemma no_vault_path_aborts_witness :
  isRunning initial_world = false /\
  getVaultPath mobile_host initial_world = (Normal None, initial_world) /\
  exec_calls (commitAndPush mobile_host initial_world).2 = [] /\
  notices (commitAndPush mobile_host initial_world).2 =
    [lit "Available on desktop only"].
Proof.
  split; [reflexivity|]. split; [reflexivity|].
  destruct (no_vault_path_aborts mobile_host initial_world eq_refl eq_refl)
    as (_ & Hexec & Hnotices & _).
  split; [exact Hexec | exact Hnotices].
Defined.

(** C5: when the verify step fails (the callback of [exec] receives an
    error, or [exec] itself throws), the only subprocess started is the
    verify command: no stage, commit or push; the failure is reported by
    the error notice and the console entry. *)
Theorem verify_failure_stops_cycle h w cwd e :
  isRunning w = false ->
  adapter h = FileSystemAdapter cwd -> cwd <> [] ->
  step_fails h verify_command cwd e ->
  exec_calls (commitAndPush h w).2 = exec_calls w ++ [(verify_command, cwd)] /\
  notices (commitAndPush h w).2 = notices w ++ [error_notice e] /\
  console_errors (commitAndPush h w).2 = console_errors w ++ [e] /\
  (commitAndPush h w).1 = Normal tt.
Proof.
  intros Hidle Ha Hc Hv.
  assert (cycle h (set_isRunning true w) =
          (Throw e, started 1 h cwd (set_isRunning true w))) as Hcycle.
  { rewrite (cycle_steps _ _ cwd Ha Hc). cbv zeta.
    unfold step_fails in Hv. by rewrite Hv. }
  destruct (commitAndPush_failed h w cwd 1 e Hidle Hcycle)
    as (Hr & Hexec & Hn & Hlog & _).
  done.
Qed.

Lemma verify_failure_stops_cycle_witness :
  exec_calls (commitAndPush not_a_repository_host initial_world).2 =
    [(verify_command, lit "/vault")].
Proof.
  refine (proj1 (verify_failure_stops_cycle
                   not_a_repository_host initial_world (lit "/vault")
                   (RunRejection command_failed []
                      (lit "fatal: not a git repository"))
                   eq_refl eq_refl _ _)).
  - discriminate.
  - vm_compute. reflexivity.
Defined.

(** *** The case-insensitive pattern test *)

Lemma match_here_spec pat : forall s,
  match_here pat s = true <->
  exists mid post, s = mid ++ post /\ map canonicalize mid = map canonicalize pat.
Proof.
  induction pat as [|p pat IH]; intros s; simpl.
  - split; [intros _; by exists [], s | done].
  - destruct s as [|c s].
    + split; [done|]. intros ([|m mid] & post & Hs & Hm); discriminate.
    + rewrite andb_true_iff, N.eqb_eq, IH. split.
      * intros (Hc & mid & post & -> & Hm).
        exists (c :: mid), post. simpl. by rewrite Hm, Hc.
      * intros ([|m mid] & post & Hs & Hm); simpl in *; [discriminate|].
        injection Hs as -> ->. injection Hm as Hc Hm.
        split; [done|]. by exists mid, post.
Qed.

Lemma regex_test_i_spec pat : forall s,
  regex_test_i pat s = true <-> contains_ignoring_case pat s.
Proof.
  unfold contains_ignoring_case.
  induction s as [|c s IH]; simpl; rewrite orb_true_iff, match_here_spec.
  - split.
    + intros [(mid & post & Hs & Hm) | ?]; [|done]. by exists [], mid, post.
    + intros ([|? ?] & mid & post & Hs & Hm); [|simpl in Hs; discriminate].
      left. by exists mid, post.
  - rewrite IH. split.
    + intros [(mid & post & Hs & Hm) | (pre & mid & post & -> & Hm)].
      * by exists [], mid, post.
      * by exists (c :: pre), mid, post.
    + intros ([|c' pre] & mid & post & Hs & Hm); simpl in Hs.
      * left. by exists mid, post.
      * injection Hs as -> ->. right. by exists pre, mid, post.
Qed.

Lemma nothing_to_commit_false msg :
  nothing_to_commit msg = false <->
  ~ contains_ignoring_case (lit "nothing to commit") msg.
Proof.
  unfold nothing_to_commit.
  rewrite <- regex_test_i_spec. by destruct (regex_test_i _ msg).
Qed.

(** Trimming does not change whether a text contains a pattern that begins
    and ends with a letter: the test on the trimmed text decides
    containment in the untrimmed text as well. *)
Lemma contains_rev pat s :
  contains_ignoring_case pat s -> contains_ignoring_case (rev pat) (rev s).
Proof.
  intros (pre & mid & post & -> & Hm).
  exists (rev post), (rev mid), (rev pre). split.
  - by rewrite !rev_app_distr, app_assoc.
  - by rewrite !map_rev, Hm.
Qed.

Lemma contains_trimStart p pat s :
  never_whitespace p ->
  contains_ignoring_case (p :: pat) (trimStart s) <->
  contains_ignoring_case (p :: pat) s.
Proof.
  intros Hp. induction s as [|c s IH]; simpl; [done|].
  destruct (is_whitespace c) eqn:Hc; [|done].
  rewrite IH. split.
  - intros (pre & mid & post & -> & Hm). by exists (c :: pre), mid, post.
  - intros ([|c' pre] & mid & post & Hs & Hm); simpl in Hs.
    + destruct mid as [|m mid]; simpl in *; [discriminate|].
      injection Hs as -> ->. injection Hm as Hm _.
      rewrite (Hp _ Hm) in Hc. discriminate.
    + injection Hs as -> ->. by exists pre, mid, post.
Qed.

Lemma contains_trimEnd p pat s :
  never_whitespace p ->
  contains_ignoring_case (pat ++ [p]) (trimEnd s) <->
  contains_ignoring_case (pat ++ [p]) s.
Proof.
  intros Hp. unfold trimEnd. split; intros Hc.
  - apply contains_rev in Hc.
    rewrite rev_involutive, rev_app_distr in Hc. simpl in Hc.
    apply (proj1 (contains_trimStart p _ _ Hp)) in Hc.
    apply contains_rev in Hc. simpl in Hc.
    by rewrite !rev_involutive in Hc.
  - apply contains_rev in Hc. rewrite rev_app_distr in Hc. simpl in Hc.
    apply (proj2 (contains_trimStart p _ _ Hp)) in Hc.
    apply contains_rev in Hc. simpl in Hc.
    by rewrite rev_involutive in Hc.
Qed.

Lemma letter_never_whitespace p :
  (65 <= p <= 90 \/ 97 <= p <= 122) -> never_whitespace p.
Proof.
  intros Hp c Hc. unfold canonicalize in Hc.
  assert (65 <= c <= 122) as Hrange.
  { destruct ((97 <=? c) && (c <=? 122)) eqn:Hlow.
    - apply andb_true_iff in Hlow as [?%N.leb_le ?%N.leb_le]. lia.
    - destruct ((97 <=? p) && (p <=? 122)) eqn:Hlow'.
      + apply andb_true_iff in Hlow' as [?%N.leb_le ?%N.leb_le]. lia.
      + apply andb_false_iff in Hlow'.
        destruct Hlow' as [?%N.leb_gt | ?%N.leb_gt]; lia. }
  unfold is_whitespace. apply not_true_is_false. intros Hws.
  apply existsb_exists in Hws as (x & Hin & ->%N.eqb_eq).
  simpl in Hin. intuition lia.
Qed.

Lemma nothing_to_commit_trim s :
  nothing_to_commit (trim s) = nothing_to_commit s.
Proof.
  assert (contains_ignoring_case (lit "nothing to commit") (trim s) <->
          contains_ignoring_case (lit "nothing to commit") s) as Hiff.
  { unfold trim.
    change (lit "nothing to commit") with (lit "nothing to commi" ++ [116]) at 1.
    rewrite (contains_trimEnd 116); [|apply letter_never_whitespace; lia].
    change (lit "nothing to commi" ++ [116])
      with (110 :: lit "othing to commit").
    apply contains_trimStart, letter_never_whitespace. lia. }
  unfold nothing_to_commit.
  destruct (regex_test_i _ (trim s)) eqn:Ht, (regex_test_i _ s) eqn:Hs;
    try done.
  - apply regex_test_i_spec, Hiff, regex_test_i_spec in Ht. congruence.
  - apply regex_test_i_spec, Hiff, regex_test_i_spec in Hs. congruence.
Qed.

(** *** The commit step *)

(** C1, as the code has it: when verify and stage succeed and the commit
    step fails with a caught value [e], the routine goes on to the push
    step exactly when the diagnostic text of [e] (the first non-empty of
    stderr, stdout, message and string form, trimmed) contains "nothing to
    commit", letter case ignored; it then reports nothing if the push
    succeeds.  Otherwise the cycle stops after the commit command, before
    any push, and the failure is reported. *)
Theorem commit_failure_recovered_iff_nothing_to_commit h w cwd e :
  isRunning w = false ->
  adapter h = FileSystemAdapter cwd -> cwd <> [] ->
  step_succeeds h verify_command cwd ->
  step_succeeds h stage_command cwd ->
  step_fails h (commit_command_of h) cwd e ->
  (contains_ignoring_case (lit "nothing to commit") (diagnostic e) ->
     exec_calls (commitAndPush h w).2 =
       exec_calls w ++
       [(verify_command, cwd); (stage_command, cwd);
        (commit_command_of h, cwd); (push_command, cwd)] /\
     (step_succeeds h push_command cwd ->
        (commitAndPush h w).1 = Normal tt /\
        notices (commitAndPush h w).2 = notices w /\
        console_errors (commitAndPush h w).2 = console_errors w)) /\
  (~ contains_ignoring_case (lit "nothing to commit") (diagnostic e) ->
     exec_calls (commitAndPush h w).2 =
       exec_calls w ++
       [(verify_command, cwd); (stage_command, cwd);
        (commit_command_of h, cwd)] /\
     notices (commitAndPush h w).2 = notices w ++ [error_notice e] /\
     console_errors (commitAndPush h w).2 = console_errors w ++ [e]).
Proof.
  intros Hidle Ha Hc [r1 Hv] [r2 Hs] Hm. unfold step_fails in Hm.
  pose proof (cycle_steps h (set_isRunning true w) cwd Ha Hc) as Hcycle.
  cbv zeta in Hcycle. rewrite Hv, Hs, Hm in Hcycle.
  split.
  - intros Hntc%regex_test_i_spec. fold (nothing_to_commit (diagnostic e)) in Hntc.
    rewrite Hntc in Hcycle.
    destruct (settle (exec h push_command cwd)) as [r4|e4] eqn:Hp.
    + destruct (commitAndPush_succeeded h w cwd Hidle Hcycle)
        as (Hr & Hexec & Hn & Hlog & _).
      done.
    + destruct (commitAndPush_failed h w cwd 4 e4 Hidle Hcycle)
        as (Hr & Hexec & Hn & Hlog & _).
      split; [done|]. intros [r Hr']. congruence.
  - intros Hntc%nothing_to_commit_false. rewrite Hntc in Hcycle.
    destruct (commitAndPush_failed h w cwd 3 e Hidle Hcycle)
      as (Hr & Hexec & Hn & Hlog & _).
    done.
Qed.

Lemma commit_failure_recovered_iff_nothing_to_commit_witness :
  exec_calls (commitAndPush nothing_to_commit_host initial_world).2 =
    [(verify_command, lit "/vault"); (stage_command, lit "/vault");
     (lit "git commit -m " ++ [dquote] ++ lit "auto commit at 3-7-2024 9:05"
        ++ [dquote], lit "/vault");
     (push_command, lit "/vault")] /\
  notices (commitAndPush nothing_to_commit_host initial_world).2 = [].
Proof.
  destruct (commit_failure_recovered_iff_nothing_to_commit
              nothing_to_commit_host initial_world (lit "/vault")
              (RunRejection command_failed
                 (lit "nothing to commit, working tree clean") []))
    as [Hrecovered _].
  - reflexivity.
  - reflexivity.
  - discriminate.
  - eexists. vm_compute. reflexivity.
  - eexists. vm_compute. reflexivity.
  - vm_compute. reflexivity.
  - destruct Hrecovered as [Hexec Hquiet].
    + apply regex_test_i_spec. vm_compute. reflexivity.
    + split; [exact Hexec|].
      apply Hquiet. eexists. vm_compute. reflexivity.
Defined.

(** The tolerance is not decided by stderr, stdout and the error text
    taken together: here git says "nothing to commit" on stdout and prints
    a warning on stderr, the combined text contains the phrase, and the
    cycle still stops after the commit command with the warning reported. *)
Lemma combined_text_counterexample :
  step_succeeds warning_and_clean_tree_host verify_command (lit "/vault") /\
  step_succeeds warning_and_clean_tree_host stage_command (lit "/vault") /\
  step_fails warning_and_clean_tree_host
    (commit_command_of warning_and_clean_tree_host) (lit "/vault")
    warning_and_clean_tree /\
  contains_ignoring_case (lit "nothing to commit")
    (combined_text warning_and_clean_tree) /\
  exec_calls (commitAndPush warning_and_clean_tree_host initial_world).2 =
    [(verify_command, lit "/vault"); (stage_command, lit "/vault");
     (commit_command_of warning_and_clean_tree_host, lit "/vault")] /\
  notices (commitAndPush warning_and_clean_tree_host initial_world).2 =
    [lit "only commit: Error" ++ [10]
       ++ lit "warning: could not open directory"].
Proof.
  split; [eexists; vm_compute; reflexivity|].
  split; [eexists; vm_compute; reflexivity|].
  split; [vm_compute; reflexivity|].
  split; [apply regex_test_i_spec; vm_compute; reflexivity|].
  split; vm_compute; reflexivity.
Qed.

(** *** Failure reporting *)

Lemma diagnostic_chosen e :
  exists text, chosen_text e text /\ diagnostic e = trim text.
Proof.
  unfold diagnostic.
  destruct (stderr_of e) as [|c1 s1] eqn:Herr; simpl.
  - destruct (stdout_of e) as [|c2 s2] eqn:Hout; simpl.
    + destruct (message_of e) as [[|c3 s3]|] eqn:Hmsg; simpl.
      * exists (String_of e). split; [|done].
        apply chosen_string_form; auto.
      * exists (c3 :: s3). split; [|done].
        by apply chosen_message.
      * exists (String_of e). split; [|done].
        apply chosen_string_form; auto.
    + exists (stdout_of e). rewrite Hout. split; [|done].
      rewrite <- Hout. apply chosen_stdout; [done|]. by rewrite Hout.
  - exists (stderr_of e). rewrite Herr. split; [|done].
    rewrite <- Herr. apply chosen_stderr. by rewrite Herr.
Qed.

(** The report of an unrecovered failure as the code builds it: one notice
    made of "only commit: Error", a line feed and the first 400 code units
    of the trimmed diagnostic text, that text being stderr if non-empty,
    else stdout if non-empty, else the message of the caught value itself,
    else its string form; the caught value is logged with [console.error],
    and the routine completes normally instead of throwing. *)
Lemma unrecovered_failure_reported h w cwd e :
  isRunning w = false ->
  adapter h = FileSystemAdapter cwd -> cwd <> [] ->
  unrecovered_failure h cwd e ->
  (exists text,
     chosen_text e text /\
     notices (commitAndPush h w).2 =
       notices w ++
       [lit "only commit: Error" ++ [10] ++ take 400 (trim text)]) /\
  console_errors (commitAndPush h w).2 = console_errors w ++ [e] /\
  (commitAndPush h w).1 = Normal tt.
Proof.
  intros Hidle Ha Hc Hfail.
  destruct (unrecovered_failure_thrown h (set_isRunning true w) cwd e Ha Hc Hfail)
    as (n & _ & Hcycle).
  destruct (commitAndPush_failed h w cwd n e Hidle Hcycle)
    as (Hr & _ & Hn & Hlog & _).
  split; [|done].
  destruct (diagnostic_chosen e) as (text & Hchosen & Hdiag).
  exists text. split; [done|].
  rewrite Hn. unfold error_notice, slice. by rewrite Hdiag.
Qed.

Lemma unrecovered_failure_reported_witness :
  (exists text,
     chosen_text unable_to_auth text /\
     notices (commitAndPush unable_to_auth_host initial_world).2 =
       notices initial_world ++
       [lit "only commit: Error" ++ [10] ++ take 400 (trim text)]) /\
  console_errors (commitAndPush unable_to_auth_host initial_world).2 =
    console_errors initial_world ++ [unable_to_auth] /\
  (commitAndPush unable_to_auth_host initial_world).1 = Normal tt.
Proof.
  apply (unrecovered_failure_reported unable_to_auth_host initial_world
           (lit "/vault") unable_to_auth).
  - reflexivity.
  - reflexivity.
  - discriminate.
  - apply commit_failure.
    + eexists. vm_compute. reflexivity.
    + eexists. vm_compute. reflexivity.
    + vm_compute. reflexivity.
    + vm_compute. reflexivity.
Defined.

(** The example of the specification: a commit step failing with
    "fatal: unable to auth" stops before the push and shows that text. *)
Example unable_to_auth_reported :
  exec_calls (commitAndPush unable_to_auth_host initial_world).2 =
    [(verify_command, lit "/vault"); (stage_command, lit "/vault");
     (commit_command (commit_message march_7_2024), lit "/vault")] /\
  notices (commitAndPush unable_to_auth_host initial_world).2 =
    [lit "only commit: Error" ++ [10] ++ lit "fatal: unable to auth"].
Proof. vm_compute. done. Qed.

(** C6, where the code misses it: the shell cannot be started, [exec]
    hands the error "spawn /bin/sh ENOENT" to its callback with nothing on
    stdout and stderr, and [run] rejects with [{ error, stdout, stderr }].
    The text the report is described to show is the error's own message;
    the routine looks for [message] on the wrapper, finds none, and shows
    "[object Object]".  The failure is still logged and not thrown. *)
Theorem callback_failure_message_is_lost :
  step_fails spawn_failure_host verify_command (lit "/vault")
    (RunRejection spawn_enoent [] []) /\
  described_diagnostic (RunRejection spawn_enoent [] []) =
    lit "spawn /bin/sh ENOENT" /\
  diagnostic (RunRejection spawn_enoent [] []) = lit "[object Object]" /\
  notices (commitAndPush spawn_failure_host initial_world).2 =
    [lit "only commit: Error" ++ [10] ++ lit "[object Object]"] /\
  console_errors (commitAndPush spawn_failure_host initial_world).2 =
    [RunRejection spawn_enoent [] []] /\
  (commitAndPush spawn_failure_host initial_world).1 = Normal tt.
Proof.
  repeat split; vm_compute; reflexivity.
Qed.


(** *** The commit message *)

Lemma int_toString_unpadded n :
  (0 <= n < 100)%Z -> int_toString n = unpadded n.
Proof.
  intros Hn.
  assert (Forall (fun k => int_toString k = unpadded k) (seqZ 0 100)) as Hall.
  { apply (bool_decide_unpack _). vm_compute. exact I. }
  rewrite Forall_forall in Hall. apply Hall, elem_of_seqZ. lia.
Qed.

Lemma padStart_two_digits n :
  (0 <= n < 100)%Z -> padStart 2 (lit "0") (int_toString n) = two_digits n.
Proof.
  intros Hn.
  assert (Forall (fun k => padStart 2 (lit "0") (int_toString k) = two_digits k)
            (seqZ 0 100)) as Hall.
  { apply (bool_decide_unpack _). vm_compute. exact I. }
  rewrite Forall_forall in Hall. apply Hall, elem_of_seqZ. lia.
Qed.

Lemma year_four_digits y :
  (1000 <= y <= 9999)%Z ->
  int_toString y =
    [digit (y / 1000); digit (y / 100 mod 10); digit (y / 10 mod 10);
     digit (y mod 10)].
Proof.
  intros Hy.
  assert (Forall (fun k => int_toString k =
                    [digit (k / 1000); digit (k / 100 mod 10);
                     digit (k / 10 mod 10); digit (k mod 10)])
            (seqZ 1000 9000)) as Hall.
  { apply (bool_decide_unpack _). vm_compute. exact I. }
  rewrite Forall_forall in Hall. apply Hall, elem_of_seqZ. lia.
Qed.

(** C7: for every date the message is "auto commit at M-D-YYYY h:mm":
    month (counted from one) and day of the month without padding, the
    year in decimal (four digits for the years 1000 to 9999), the 24-hour
    local hour without padding and the minute with exactly two digits; for
    March 7, 2024 at 9:05 it is "auto commit at 3-7-2024 9:05". *)
Theorem commit_message_format d :
  valid_date d ->
  commit_message d =
    lit "auto commit at " ++ unpadded (getMonth d + 1) ++ lit "-"
      ++ unpadded (getDate d) ++ lit "-" ++ int_toString (getFullYear d)
      ++ lit " " ++ unpadded (getHours d) ++ lit ":"
      ++ two_digits (getMinutes d) /\
  ((1000 <= getFullYear d <= 9999)%Z ->
   int_toString (getFullYear d) =
     [digit (getFullYear d / 1000); digit (getFullYear d / 100 mod 10);
      digit (getFullYear d / 10 mod 10); digit (getFullYear d mod 10)]) /\
  commit_message march_7_2024 = lit "auto commit at 3-7-2024 9:05".
Proof.
  intros (Hmonth & Hday & Hhour & Hminute).
  split; [|split; [apply year_four_digits | reflexivity]].
  unfold commit_message.
  rewrite (int_toString_unpadded (getMonth d + 1)) by lia.
  rewrite (int_toString_unpadded (getDate d)) by lia.
  rewrite (int_toString_unpadded (getHours d)) by lia.
  rewrite (padStart_two_digits (getMinutes d)) by lia.
  reflexivity.
Qed.

Lemma commit_message_format_witness :
  valid_date march_7_2024 /\
  commit_message march_7_2024 =
    lit "auto commit at " ++ [digit 3] ++ lit "-" ++ [digit 7] ++ lit "-"
      ++ [digit 2; digit 0; digit 2; digit 4] ++ lit " " ++ [digit 9]
      ++ lit ":" ++ [digit 0; digit 5].
Proof.
  assert (valid_date march_7_2024) as Hvalid
    by (unfold valid_date; simpl; lia).
  split; [exact Hvalid|].
  exact (proj1 (commit_message_format march_7_2024 Hvalid)).
Defined.

(** *** The scheduler *)

Lemma delete_only_key (m : gmap nat jsnumber) handle :
  (forall k, k ∈ dom m -> k = handle) -> delete handle m = ∅.
Proof.
  intros Honly. apply map_empty. intros k.
  destruct (decide (k = handle)) as [->|Hne].
  - apply lookup_delete_eq.
  - rewrite lookup_delete_ne by done.
    apply not_elem_of_dom. intros Hk. by apply Hne, Honly.
Qed.

(** For a finite Number, "not [<= 0]" and "[> 0]" are the same. *)
Lemma finite_positive v :
  isFinite v = true -> (le v (of_Z 0) = false <-> gt v (of_Z 0) = true).
Proof.
  destruct v as [[]|[]| |[] m e]; intros Hfin; try discriminate;
    vm_compute; split; congruence.
Qed.

(** [reschedule] never throws and computes its result from the interval
    setting alone, once the old timer is gone. *)
Lemma reschedule_unfold h w :
  timers_consistent w ->
  reschedule h w =
    let v := intervalMinutes (settings w) in
    let cleared :=
      match autoIntervalHandle w with
      | Some _ => set_autoIntervalHandle None (set_timers ∅ (next_handle w) w)
      | None => w
      end in
    if negb (isFinite v) || le v (of_Z 0) then (Normal tt, cleared)
    else
      (Normal tt,
       add_registered (next_handle w)
         (set_autoIntervalHandle (Some (next_handle w))
            (set_timers (<[next_handle w := period_ms v]> (timers cleared))
               (S (next_handle w)) cleared))).
Proof.
  unfold timers_consistent, reschedule, mbind, M_bind, gets, modify,
    clearInterval, setInterval, registerInterval, mret, M_ret.
  intros Hcons. cbv zeta.
  destruct (autoIntervalHandle w) as [handle|]; simpl.
  - rewrite (delete_only_key _ _ Hcons).
    destruct (negb (isFinite _) || le _ _); reflexivity.
  - destruct (negb (isFinite _) || le _ _); reflexivity.
Qed.

(** C2, as the code has it: after [reschedule], if the interval is not
    finite or is [<= 0], no timer is installed and no handle is kept (a
    previous timer has been cancelled); if it is finite and [> 0], exactly
    one repeating timer is installed, its handle is kept, and its delay is
    [max(10000, round(v * 60 * 1000))], the two products being taken one
    after the other in double precision. *)
Theorem reschedule_installs_timer h w :
  timers_consistent w ->
  let v := intervalMinutes (settings w) in
  (reschedule h w).1 = Normal tt /\
  timers_consistent (reschedule h w).2 /\
  (isFinite v = false \/ le v (of_Z 0) = true ->
     timers (reschedule h w).2 = ∅ /\
     autoIntervalHandle (reschedule h w).2 = None) /\
  (isFinite v = true -> gt v (of_Z 0) = true ->
     exists handle,
       timers (reschedule h w).2 =
         {[ handle :=
              Math_max (of_Z 10000)
                (Math_round (mul (mul v (of_Z 60)) (of_Z 1000))) ]} /\
       autoIntervalHandle (reschedule h w).2 = Some handle).
Proof.
  intros Hcons v.
  rewrite (reschedule_unfold h w Hcons). cbv zeta. fold v.
  set (cleared := match autoIntervalHandle w with
                  | Some _ => set_autoIntervalHandle None
                                (set_timers ∅ (next_handle w) w)
                  | None => w
                  end).
  assert (timers cleared = ∅) as Hcleared.
  { unfold timers_consistent in Hcons. subst cleared.
    destruct (autoIntervalHandle w); [reflexivity | exact Hcons]. }
  assert (autoIntervalHandle cleared = None) as Hhandle.
  { subst cleared.
    destruct (autoIntervalHandle w) eqn:Hh; [reflexivity | exact Hh]. }
  destruct (isFinite v) eqn:Hfin; cbn [negb orb].
  - destruct (le v (of_Z 0)) eqn:Hle; cbn [fst snd].
    + split; [done|]. split; [|split].
      * unfold timers_consistent. by rewrite Hhandle.
      * done.
      * intros _ Hgt. apply (finite_positive v Hfin) in Hgt. congruence.
    + split; [done|]. split; [|split].
      * unfold timers_consistent. simpl. rewrite Hcleared.
        intros k. rewrite insert_empty, dom_singleton_L. set_solver.
      * intros [?|?]; congruence.
      * intros _ _. exists (next_handle w). simpl.
        rewrite Hcleared, insert_empty. done.
  - cbn [fst snd]. split; [done|]. split; [|split].
    + unfold timers_consistent. by rewrite Hhandle.
    + done.
    + congruence.
Qed.

Lemma reschedule_installs_timer_witness :
  timers_consistent initial_world /\
  exists handle,
    timers (reschedule healthy_host initial_world).2 =
      {[ handle := of_Z 300000 ]} /\
    autoIntervalHandle (reschedule healthy_host initial_world).2 = Some handle.
Proof.
  assert (timers_consistent initial_world) as Hcons by reflexivity.
  split; [exact Hcons|].
  destruct (reschedule_installs_timer healthy_host initial_world Hcons)
    as (_ & _ & _ & Hinstalled).
  apply Hinstalled; vm_compute; reflexivity.
Defined.

(** The delay installed for the interval [0.16675833333333331] is 10006
    milliseconds, while [max(10000, round(v * 60000))] is 10005, both in
    double precision (the single product is 10005.499999999998) and in
    exact arithmetic (the exact product lies in [10004.5, 10005.5)). *)
Lemma claimed_period_counterexample :
  timers_consistent (world_with_interval interval_0_16675833333333331) /\
  isFinite interval_0_16675833333333331 = true /\
  gt interval_0_16675833333333331 (of_Z 0) = true /\
  timers (reschedule healthy_host
            (world_with_interval interval_0_16675833333333331)).2 =
    {[ 1%nat := of_Z 10006 ]} /\
  claimed_period interval_0_16675833333333331 = of_Z 10005 /\
  (forall handle,
     timers (reschedule healthy_host
               (world_with_interval interval_0_16675833333333331)).2 <>
       {[ handle := claimed_period interval_0_16675833333333331 ]}) /\
  (20009 * 2 ^ 55 <= 2 * (0x1558564a0045e7 * 60000) < 20011 * 2 ^ 55)%Z.
Proof.
  assert (timers (reschedule healthy_host
                    (world_with_interval interval_0_16675833333333331)).2 =
            {[ 1%nat := of_Z 10006 ]})
    as Htimers by (vm_compute; reflexivity).
  assert (claimed_period interval_0_16675833333333331 = of_Z 10005) as Hclaimed
    by (vm_compute; reflexivity).
  split; [reflexivity|]. split; [reflexivity|].
  split; [vm_compute; reflexivity|].
  split; [exact Htimers|]. split; [exact Hclaimed|].
  split; [|lia].
  intros handle Heq. rewrite Htimers, Hclaimed in Heq.
  apply (f_equal (fun m => m !! 1%nat)) in Heq.
  rewrite lookup_singleton_eq, lookup_singleton in Heq.
  destruct (decide (handle = 1%nat)); [|discriminate].
  vm_compute in Heq. discriminate.
Qed.

(** *** The settings tab *)

Lemma reschedule_frame h w :
  settings (reschedule h w).2 = settings w /\
  persisted (reschedule h w).2 = persisted w /\
  isRunning (reschedule h w).2 = isRunning w.
Proof.
  unfold reschedule, mbind, M_bind, gets, modify, clearInterval, setInterval,
    registerInterval, mret, M_ret.
  destruct (autoIntervalHandle w); simpl;
    destruct (negb (isFinite _) || le _ _); done.
Qed.

Lemma onChange_saved parseFloat value h w :
  saveData_failure h = None ->
  onChange parseFloat value h w =
    reschedule h
      (set_persisted {| intervalMinutes := coerce_interval (parseFloat value) |}
         (set_settings
            {| intervalMinutes := coerce_interval (parseFloat value) |} w)).
Proof.
  intros Hsave.
  unfold onChange, mbind, M_bind, modify, saveSettings.
  rewrite Hsave. reflexivity.
Qed.

(** When the host rejects [saveData], the new value stays in memory but the
    timers are left as they were: [reschedule] is not reached. *)
Lemma onChange_save_rejected parseFloat value h w err :
  saveData_failure h = Some err ->
  onChange parseFloat value h w =
    (Throw (ErrorValue err),
     set_settings {| intervalMinutes := coerce_interval (parseFloat value) |} w).
Proof.
  intros Hsave.
  unfold onChange, mbind, M_bind, modify, saveSettings.
  rewrite Hsave. reflexivity.
Qed.




(** ** Further properties of the commit routine *)

Lemma cycle_desktop_only h w :
  adapter h = OtherAdapter \/ adapter h = FileSystemAdapter [] ->
  cycle h w = (Normal tt, add_notice (lit "Available on desktop only") w).
Proof.
  unfold cycle, mbind, M_bind, getVaultPath, asks.
  intros [-> | ->]; reflexivity.
Qed.

Lemma cycle_ends h w : cycle_end h w (cycle h w).
Proof.
  destruct (adapter h) as [[|c cwd]|] eqn:Ha.
  - rewrite cycle_desktop_only by auto. constructor.
  - rewrite (cycle_steps h w (c :: cwd) Ha) by done. cbv zeta.
    destruct (settle (exec h verify_command _));
      [|apply cycle_thrown; lia].
    destruct (settle (exec h stage_command _));
      [|apply cycle_thrown; lia].
    destruct (settle (exec h (commit_command_of h) _)) as [r|e].
    + destruct (settle (exec h push_command _));
        [apply cycle_finished | apply cycle_thrown; lia].
    + destruct (nothing_to_commit (diagnostic e));
        [|apply cycle_thrown; lia].
      destruct (settle (exec h push_command _));
        [apply cycle_finished | apply cycle_thrown; lia].
  - rewrite cycle_desktop_only by auto. constructor.
Qed.

Lemma started_scheduler_frame n h cwd w :
  next_handle (started n h cwd w) = next_handle w /\
  registered (started n h cwd w) = registered w /\
  persisted (started n h cwd w) = persisted w.
Proof.
  unfold started.
  generalize (take n [verify_command; stage_command; commit_command_of h; push_command]).
  intros l. revert w.
  induction l as [|c l IH]; intros w; simpl; [done|].
  apply (IH (add_exec_call c cwd w)).
Qed.

(** The routine leaves the scheduler and the settings alone: whatever the
    host does, an activation changes neither the interval setting, nor the
    window's timers, nor the remembered handle, nor the handles registered
    with the host, nor the persisted settings; a consistent timer table
    stays consistent. *)
Theorem commitAndPush_leaves_scheduler_alone h w :
  settings (commitAndPush h w).2 = settings w /\
  timers (commitAndPush h w).2 = timers w /\
  autoIntervalHandle (commitAndPush h w).2 = autoIntervalHandle w /\
  next_handle (commitAndPush h w).2 = next_handle w /\
  registered (commitAndPush h w).2 = registered w /\
  persisted (commitAndPush h w).2 = persisted w /\
  (timers_consistent w -> timers_consistent (commitAndPush h w).2).
Proof.
  assert (settings (commitAndPush h w).2 = settings w /\
          timers (commitAndPush h w).2 = timers w /\
          autoIntervalHandle (commitAndPush h w).2 = autoIntervalHandle w /\
          next_handle (commitAndPush h w).2 = next_handle w /\
          registered (commitAndPush h w).2 = registered w /\
          persisted (commitAndPush h w).2 = persisted w) as Hframe.
  { destruct (isRunning w) eqn:Hrun.
    - rewrite (commitAndPush_busy _ _ Hrun). done.
    - rewrite (commitAndPush_idle _ _ Hrun). unfold try_catch.
      destruct (cycle_ends h (set_isRunning true w)) as [|cwd n e Hn|cwd].
      + done.
      + rewrite failure_handler_effect. simpl.
        pose proof (started_frame n h cwd (set_isRunning true w))
          as (_ & _ & _ & Hs & Ht & Ha).
        pose proof (started_scheduler_frame n h cwd (set_isRunning true w))
          as (Hx & Hr & Hp).
        rewrite Hs, Ht, Ha, Hx, Hr, Hp. done.
      + simpl. done. }
  destruct Hframe as (Hs & Ht & Ha & Hx & Hr & Hp).
  repeat (split; [assumption|]).
  unfold timers_consistent. by rewrite Ht, Ha.
Qed.

(** Whatever the host does, the subprocesses an activation starts are an
    initial part of verify, stage, commit, push, in that order and all in
    one working directory: no step runs before the ones in front of it. *)
Theorem exec_calls_follow_the_order h w :
  exists n cwd,
    (n <= 4)%nat /\
    exec_calls (commitAndPush h w).2 =
      exec_calls w ++
      map (fun command => (command, cwd))
        (take n [verify_command; stage_command; commit_command_of h;
                 push_command]).
Proof.
  destruct (isRunning w) eqn:Hrun.
  - exists 0%nat, []. split; [lia|].
    rewrite (commitAndPush_busy _ _ Hrun). simpl. by rewrite app_nil_r.
  - rewrite (commitAndPush_idle _ _ Hrun). unfold try_catch.
    destruct (cycle_ends h (set_isRunning true w)) as [|cwd n e Hn|cwd].
    + exists 0%nat, []. split; [lia|]. simpl. by rewrite app_nil_r.
    + exists n, cwd. split; [lia|].
      rewrite failure_handler_effect. simpl.
      by rewrite started_exec_calls.
    + exists 4%nat, cwd. split; [lia|]. simpl.
      by rewrite <- !app_assoc.
Qed.

(** Whatever the host does, an activation shows at most one notice and
    logs at most one value, and it logs a value exactly when the notice is
    the error notice of that value: every failure is reported once. *)
Theorem at_most_one_report h w :
  (notices (commitAndPush h w).2 = notices w /\
   console_errors (commitAndPush h w).2 = console_errors w) \/
  (exists text,
     (text = lit "only commit: already running" \/
      text = lit "Available on desktop only") /\
     notices (commitAndPush h w).2 = notices w ++ [text] /\
     console_errors (commitAndPush h w).2 = console_errors w) \/
  (exists e,
     notices (commitAndPush h w).2 = notices w ++ [error_notice e] /\
     console_errors (commitAndPush h w).2 = console_errors w ++ [e]).
Proof.
  destruct (isRunning w) eqn:Hrun.
  - right. left. exists (lit "only commit: already running").
    rewrite (commitAndPush_busy _ _ Hrun). auto.
  - rewrite (commitAndPush_idle _ _ Hrun). unfold try_catch.
    destruct (cycle_ends h (set_isRunning true w)) as [|cwd n e Hn|cwd].
    + right. left. exists (lit "Available on desktop only"). auto.
    + right. right. exists e.
      rewrite failure_handler_effect. simpl.
      pose proof (started_frame n h cwd (set_isRunning true w))
        as (Hnotices & Hlog & _).
      by rewrite Hnotices, Hlog.
    + left. simpl. done.
Qed.

(** While a cycle is running, a tick of the timer is dropped without a
    trace (no notice, no subprocess, the world is unchanged), whereas a
    click on the ribbon icon shows the "already running" notice; neither
    throws. *)
Theorem tick_is_silent_click_is_not h w :
  isRunning w = true ->
  timer_tick h w = (Normal tt, w) /\
  ribbon_click h w =
    (Normal tt, add_notice (lit "only commit: already running") w).
Proof.
  intros Hbusy. split.
  - unfold timer_tick, mbind, M_bind, gets. by rewrite Hbusy.
  - unfold ribbon_click, try_catch. by rewrite (commitAndPush_busy _ _ Hbusy).
Qed.

Lemma tick_is_silent_click_is_not_witness :
  isRunning busy_world = true /\
  notices (timer_tick healthy_host busy_world).2 = [] /\
  notices (ribbon_click healthy_host busy_world).2 =
    [lit "only commit: already running"].
Proof.
  split; [reflexivity|].
  destruct (tick_is_silent_click_is_not healthy_host busy_world eq_refl)
    as [Htick Hclick].
  rewrite Htick, Hclick. split; reflexivity.
Defined.

(** When no cycle is running, a tick of the timer and a click on the
    ribbon icon both do exactly what one activation of the routine does. *)
Lemma idle_triggers_run_one_activation h w :
  isRunning w = false ->
  timer_tick h w = commitAndPush h w /\ ribbon_click h w = commitAndPush h w.
Proof.
  intros Hidle.
  pose proof (commitAndPush_idle h w Hidle) as Hrun.
  split.
  - unfold timer_tick, mbind, M_bind, gets, try_catch.
    rewrite Hidle. simpl. by rewrite Hrun.
  - unfold ribbon_click, try_catch. by rewrite Hrun.
Qed.

Lemma idle_triggers_run_one_activation_witness :
  isRunning initial_world = false /\
  timer_tick healthy_host initial_world =
    commitAndPush healthy_host initial_world.
Proof.
  split; [reflexivity|].
  exact (proj1 (idle_triggers_run_one_activation healthy_host initial_world
                  eq_refl)).
Defined.

(** A cycle whose four steps all succeed starts the four commands in
    order and is silent: no notice, nothing on the console. *)
Theorem successful_cycle_is_silent h w cwd :
  isRunning w = false ->
  adapter h = FileSystemAdapter cwd -> cwd <> [] ->
  step_succeeds h verify_command cwd ->
  step_succeeds h stage_command cwd ->
  step_succeeds h (commit_command_of h) cwd ->
  step_succeeds h push_command cwd ->
  exec_calls (commitAndPush h w).2 =
    exec_calls w ++
    [(verify_command, cwd); (stage_command, cwd);
     (commit_command_of h, cwd); (push_command, cwd)] /\
  notices (commitAndPush h w).2 = notices w /\
  console_errors (commitAndPush h w).2 = console_errors w.
Proof.
  intros Hidle Ha Hc [r1 Hv] [r2 Hs] [r3 Hm] [r4 Hp].
  pose proof (cycle_steps h (set_isRunning true w) cwd Ha Hc) as Hcycle.
  cbv zeta in Hcycle. rewrite Hv, Hs, Hm, Hp in Hcycle.
  destruct (commitAndPush_succeeded h w cwd Hidle Hcycle)
    as (_ & Hexec & Hn & Hlog & _).
  done.
Qed.

Lemma successful_cycle_is_silent_witness :
  exec_calls (commitAndPush healthy_host initial_world).2 =
    [(verify_command, lit "/vault"); (stage_command, lit "/vault");
     (commit_command_of healthy_host, lit "/vault");
     (push_command, lit "/vault")] /\
  notices (commitAndPush healthy_host initial_world).2 = [] /\
  console_errors (commitAndPush healthy_host initial_world).2 = [].
Proof.
  apply (successful_cycle_is_silent healthy_host initial_world (lit "/vault"));
    try reflexivity; try discriminate; by eexists.
Defined.

(** When staging fails after a successful verify, the cycle stops there:
    neither the commit nor the push command is started, and the failure is
    reported. *)
Theorem stage_failure_stops_cycle h w cwd e :
  isRunning w = false ->
  adapter h = FileSystemAdapter cwd -> cwd <> [] ->
  step_succeeds h verify_command cwd ->
  step_fails h stage_command cwd e ->
  exec_calls (commitAndPush h w).2 =
    exec_calls w ++ [(verify_command, cwd); (stage_command, cwd)] /\
  notices (commitAndPush h w).2 = notices w ++ [error_notice e] /\
  console_errors (commitAndPush h w).2 = console_errors w ++ [e].
Proof.
  intros Hidle Ha Hc [r1 Hv] Hs. unfold step_fails in Hs.
  pose proof (cycle_steps h (set_isRunning true w) cwd Ha Hc) as Hcycle.
  cbv zeta in Hcycle. rewrite Hv, Hs in Hcycle.
  destruct (commitAndPush_failed h w cwd 2 e Hidle Hcycle)
    as (_ & Hexec & Hn & Hlog & _).
  done.
Qed.

Lemma stage_failure_stops_cycle_witness :
  exec_calls (commitAndPush index_locked_host initial_world).2 =
    [(verify_command, lit "/vault"); (stage_command, lit "/vault")].
Proof.
  refine (proj1 (stage_failure_stops_cycle index_locked_host initial_world
                   (lit "/vault")
                   (RunRejection command_failed []
                      (lit "fatal: Unable to create index.lock"))
                   eq_refl eq_refl _ _ _)).
  - discriminate.
  - eexists. vm_compute. reflexivity.
  - vm_compute. reflexivity.
Defined.

(** A failing push is reported even when the commit step had been
    recovered from "nothing to commit": the tolerance covers the commit
    step only. *)
Theorem push_failure_after_recovered_commit h w cwd e0 e :
  isRunning w = false ->
  adapter h = FileSystemAdapter cwd -> cwd <> [] ->
  step_succeeds h verify_command cwd ->
  step_succeeds h stage_command cwd ->
  step_fails h (commit_command_of h) cwd e0 ->
  nothing_to_commit (diagnostic e0) = true ->
  step_fails h push_command cwd e ->
  exec_calls (commitAndPush h w).2 =
    exec_calls w ++
    [(verify_command, cwd); (stage_command, cwd);
     (commit_command_of h, cwd); (push_command, cwd)] /\
  notices (commitAndPush h w).2 = notices w ++ [error_notice e] /\
  console_errors (commitAndPush h w).2 = console_errors w ++ [e].
Proof.
  intros Hidle Ha Hc [r1 Hv] [r2 Hs] Hm Hntc Hp. unfold step_fails in *.
  pose proof (cycle_steps h (set_isRunning true w) cwd Ha Hc) as Hcycle.
  cbv zeta in Hcycle. rewrite Hv, Hs, Hm, Hntc, Hp in Hcycle.
  destruct (commitAndPush_failed h w cwd 4 e Hidle Hcycle)
    as (_ & Hexec & Hn & Hlog & _).
  done.
Qed.

Lemma push_failure_after_recovered_commit_witness :
  notices (commitAndPush clean_tree_push_rejected_host initial_world).2 =
    [lit "only commit: Error" ++ [10] ++ lit "rejected"].
Proof.
  refine (proj1 (proj2 (push_failure_after_recovered_commit
                          clean_tree_push_rejected_host initial_world
                          (lit "/vault")
                          (RunRejection command_failed
                             (lit "nothing to commit, working tree clean") [])
                          (RunRejection command_failed [] (lit "rejected"))
                          eq_refl eq_refl _ _ _ _ _ _))).
  - discriminate.
  - eexists. vm_compute. reflexivity.
  - eexists. vm_compute. reflexivity.
  - vm_compute. reflexivity.
  - vm_compute. reflexivity.
  - vm_compute. reflexivity.
Defined.

(** A file system adapter whose base path is the empty string is treated
    like no adapter at all: the guard [!cwd] shows the desktop-only notice
    and no subprocess is started. *)
Theorem empty_base_path_is_desktop_only h w :
  isRunning w = false ->
  adapter h = FileSystemAdapter [] ->
  exec_calls (commitAndPush h w).2 = exec_calls w /\
  notices (commitAndPush h w).2 =
    notices w ++ [lit "Available on desktop only"] /\
  console_errors (commitAndPush h w).2 = console_errors w /\
  isRunning (commitAndPush h w).2 = false.
Proof.
  intros Hidle Ha.
  rewrite (commitAndPush_idle _ _ Hidle). unfold try_catch.
  rewrite cycle_desktop_only by auto. done.
Qed.

Lemma empty_base_path_is_desktop_only_witness :
  exec_calls (commitAndPush empty_path_host initial_world).2 = [] /\
  notices (commitAndPush empty_path_host initial_world).2 =
    [lit "Available on desktop only"].
Proof.
  destruct (empty_base_path_is_desktop_only empty_path_host initial_world
              eq_refl eq_refl) as (Hexec & Hnotices & _).
  split; [exact Hexec | exact Hnotices].
Defined.

(** ** Further properties of the diagnostic text *)

(** Whether a commit failure is tolerated can be read off the untrimmed
    text: the diagnostic of [e] passes the "nothing to commit" test exactly
    when the text chosen among stderr, stdout, message and string form
    contains the phrase, letter case ignored. *)
Theorem recovery_decided_by_chosen_text e :
  nothing_to_commit (diagnostic e) = true <->
  exists text,
    chosen_text e text /\
    contains_ignoring_case (lit "nothing to commit") text.
Proof.
  destruct (diagnostic_chosen e) as (text & Hchosen & Hdiag).
  rewrite Hdiag, nothing_to_commit_trim.
  unfold nothing_to_commit. rewrite regex_test_i_spec. split.
  - intros Hc. by exists text.
  - intros (text' & Hchosen' & Hc).
    assert (text' = text) as ->; [|done].
    destruct Hchosen, Hchosen'; intuition congruence.
Qed.

(** stderr hides stdout: when stderr is not empty, the diagnostic text is
    the trimmed stderr alone, so a "nothing to commit" that git printed on
    stdout is not seen and the tolerance depends on stderr only. *)
Theorem stderr_hides_stdout error out err :
  err <> [] ->
  diagnostic (RunRejection error out err) = trim err /\
  nothing_to_commit (diagnostic (RunRejection error out err)) =
    nothing_to_commit err.
Proof.
  intros Herr.
  assert (diagnostic (RunRejection error out err) = trim err) as Hdiag.
  { unfold diagnostic. simpl. by destruct err. }
  split; [exact Hdiag|]. by rewrite Hdiag, nothing_to_commit_trim.
Qed.

Lemma stderr_hides_stdout_witness :
  nothing_to_commit
    (diagnostic
       (RunRejection command_failed
          (lit "nothing to commit, working tree clean")
          (lit "warning: could not open directory")))
  = false.
Proof.
  rewrite (proj2 (stderr_hides_stdout command_failed
                    (lit "nothing to commit, working tree clean")
                    (lit "warning: could not open directory")
                    ltac:(discriminate))).
  vm_compute. reflexivity.
Defined.

Lemma trimStart_head s c :
  head (trimStart s) = Some c -> is_whitespace c = false.
Proof.
  induction s as [|a s IH]; simpl; [done|].
  destruct (is_whitespace a) eqn:Ha; [exact IH|].
  simpl. by intros [= <-].
Qed.

Lemma trimStart_suffix s :
  exists ws, s = ws ++ trimStart s.
Proof.
  induction s as [|a s [ws IH]]; simpl; [by exists []|].
  destruct (is_whitespace a).
  - exists (a :: ws). simpl. by rewrite <- IH.
  - by exists [].
Qed.

Lemma trimEnd_prefix s :
  exists ws, s = trimEnd s ++ ws.
Proof.
  unfold trimEnd. destruct (trimStart_suffix (rev s)) as [ws Hws].
  exists (rev ws).
  rewrite <- rev_app_distr, <- Hws. by rewrite rev_involutive.
Qed.

(** The failure notice is short and tidy: after the heading and the line
    feed comes an initial part of the diagnostic text of at most 400 code
    units, which does not begin with whitespace; the whole notice has at
    most 419 code units. *)
Theorem error_notice_shape e :
  exists body rest,
    error_notice e = lit "only commit: Error" ++ [10] ++ body /\
    diagnostic e = body ++ rest /\
    (length body <= 400)%nat /\
    (length (error_notice e) <= 419)%nat /\
    (forall c, head body = Some c -> is_whitespace c = false).
Proof.
  exists (take 400 (diagnostic e)), (drop 400 (diagnostic e)).
  assert (length (take 400 (diagnostic e)) <= 400)%nat as Hlen
    by (rewrite length_take; lia).
  split; [reflexivity|]. split; [by rewrite take_drop|].
  split; [exact Hlen|]. split.
  - unfold error_notice.
    change (slice 0 400 (diagnostic e)) with (take 400 (diagnostic e)).
    revert Hlen. generalize (take 400 (diagnostic e)). intros body Hlen.
    rewrite !length_app. simpl. lia.
  - intros c Hc.
    assert (head (diagnostic e) = Some c) as Hhead.
    { destruct (diagnostic e); [discriminate | exact Hc]. }
    destruct (diagnostic_chosen e) as (text & _ & Hdiag).
    rewrite Hdiag in Hhead. unfold trim in Hhead.
    destruct (trimEnd_prefix (trimStart text)) as [ws Hws].
    apply (trimStart_head text). rewrite Hws.
    by destruct (trimEnd (trimStart text)).
Qed.

(** ** Further properties of the commit command *)

Lemma digits_are_message_chars d :
  Forall (fun c => message_char c = true) (lit (NilEmpty.string_of_uint d)).
Proof.
  induction d; simpl; constructor; done.
Qed.

Lemma int_toString_message_chars z :
  Forall (fun c => message_char c = true) (int_toString z).
Proof.
  unfold int_toString, NilZero.string_of_int, NilZero.string_of_uint.
  destruct (Z.to_int z) as [[]|[]]; simpl;
    repeat constructor; apply digits_are_message_chars.
Qed.

Lemma repeat_to_Forall (P : N -> Prop) pad :
  Forall P pad ->
  forall n cur fuel, Forall P cur -> Forall P (repeat_to n pad cur fuel).
Proof.
  intros Hpad. induction n as [|n IH]; intros cur fuel Hcur; simpl; [done|].
  destruct fuel as [|fuel]; [done|].
  destruct cur as [|c cur].
  - destruct pad as [|p pad]; [done|].
    inversion Hpad; subst. constructor; [done|]. by apply IH.
  - inversion Hcur; subst. constructor; [done|]. by apply IH.
Qed.

Lemma padStart_Forall (P : N -> Prop) n pad s :
  Forall P pad -> Forall P s -> Forall P (padStart n pad s).
Proof.
  intros Hpad Hs. unfold padStart.
  destruct (n <=? length s)%nat; [done|].
  apply Forall_app. split; [by apply repeat_to_Forall | done].
Qed.

Lemma escape_dquotes_id s :
  Forall (fun c => c <> dquote) s -> escape_dquotes s = s.
Proof.
  induction 1 as [|c s Hc _ IH]; simpl; [done|].
  destruct (c =? dquote) eqn:Heq; [by apply N.eqb_eq in Heq|].
  by rewrite IH.
Qed.

(** For every state of the clock, the commit message consists of letters,
    digits, spaces, hyphens and colons only.  It contains no double quote,
    so the escaping changes nothing and the command line is the message
    between two double quotes after [git commit -m]. *)
Theorem commit_message_needs_no_escaping d :
  Forall (fun c => message_char c = true) (commit_message d) /\
  escape_dquotes (commit_message d) = commit_message d /\
  commit_command (commit_message d) =
    lit "git commit -m " ++ [dquote] ++ commit_message d ++ [dquote].
Proof.
  assert (Forall (fun c => message_char c = true) (commit_message d)) as Hchars.
  { unfold commit_message.
    repeat (apply Forall_app; split);
      try apply int_toString_message_chars;
      try (apply padStart_Forall; [|apply int_toString_message_chars]);
      repeat constructor. }
  assert (escape_dquotes (commit_message d) = commit_message d) as Hid.
  { apply escape_dquotes_id. eapply Forall_impl; [exact Hchars|].
    intros c Hc ->. discriminate. }
  split; [exact Hchars|]. split; [exact Hid|].
  unfold commit_command. by rewrite Hid.
Qed.

(** ** Further properties of the scheduler *)

Lemma shr_1_nonneg mrs : (0 <= shr_m mrs -> 0 <= shr_m (shr_1 mrs))%Z.
Proof.
  destruct mrs as [[|[p|p|]|[p|p|]] r s]; simpl; lia.
Qed.

Lemma iter_shr_1_nonneg p :
  forall mrs, (0 <= shr_m mrs -> 0 <= shr_m (SpecFloat.iter_pos shr_1 p mrs))%Z.
Proof.
  induction p as [p IH|p IH|]; intros mrs Hm; simpl.
  - by apply IH, IH, shr_1_nonneg.
  - by apply IH, IH.
  - by apply shr_1_nonneg.
Qed.

Lemma shr_fexp_nonneg m e l :
  (0 <= m -> 0 <= shr_m (shr_fexp prec emax m e l).1)%Z.
Proof.
  intros Hm. unfold shr_fexp, shr.
  assert (0 <= shr_m (shr_record_of_loc m l))%Z as Hrec
    by (by destruct l as [|[]]).
  destruct (fexp prec emax (Zdigits2 m + e) - e)%Z; simpl; try done.
  by apply iter_shr_1_nonneg.
Qed.

Lemma round_nearest_even_nonneg m l :
  (0 <= m -> 0 <= round_nearest_even m l)%Z.
Proof.
  intros Hm. destruct l as [|[]]; simpl; try lia.
  destruct (Z.even m); lia.
Qed.

Lemma binary_round_aux_nonnegative m e l :
  (0 <= m)%Z -> nonnegative (binary_round_aux prec emax false m e l).
Proof.
  intros Hm. unfold binary_round_aux.
  pose proof (shr_fexp_nonneg m e l Hm) as H1.
  destruct (shr_fexp prec emax m e l) as [mrs' e']. simpl in H1.
  pose proof (shr_fexp_nonneg
                (round_nearest_even (shr_m mrs') (loc_of_shr_record mrs'))
                e' loc_Exact (round_nearest_even_nonneg _ _ H1)) as H2.
  destruct (shr_fexp prec emax _ e' loc_Exact) as [mrs'' e'']. simpl in H2.
  destruct (shr_m mrs''); [done| |lia].
  by destruct (e'' <=? emax - prec)%Z.
Qed.

Lemma mul_nonnegative x y :
  nonnegative x -> nonnegative y ->
  x <> S754_zero false \/ y <> Infinity ->
  x <> Infinity \/ y <> S754_zero false ->
  nonnegative (mul x y).
Proof.
  destruct x as [[]|[]| |[] mx ex], y as [[]|[]| |[] my ey];
    simpl; try done; try (intros _ _ [?|?] [?|?]; done).
  intros _ _ _ _. by apply binary_round_aux_nonnegative.
Qed.

Lemma of_Z_nonnegative n : (0 <= n)%Z -> nonnegative (of_Z n).
Proof.
  intros Hn. unfold of_Z, binary_normalize.
  destruct n as [|p|p]; [done| |lia].
  unfold binary_round.
  destruct (shl_align p 0 _) as [mz ez].
  by apply binary_round_aux_nonnegative.
Qed.

Lemma Math_round_nonnegative x : nonnegative x -> nonnegative (Math_round x).
Proof.
  destruct x as [[]|[]| |[] m e]; simpl; try done.
  intros _. destruct (0 <=? e)%Z eqn:He; [done|].
  apply Z.leb_gt in He.
  assert (0 <= (2 * Z.pos m + 2 ^ (- e)) / (2 * 2 ^ (- e)))%Z as Hn.
  { pose proof (Z.pow_pos_nonneg 2 (- e)). apply Z.div_pos; lia. }
  destruct (_ =? 0)%Z; [done|]. by apply of_Z_nonnegative.
Qed.

Lemma Math_max_ten_seconds y :
  nonnegative y -> le (of_Z 10000) (Math_max (of_Z 10000) y) = true.
Proof.
  intros Hy.
  assert (of_Z 10000 = S754_finite false 5497558138880000 (-39)) as ->
    by (vm_compute; reflexivity).
  unfold Math_max, le, SFleb.
  destruct (SFcompare (S754_finite false 5497558138880000 (-39)) y)
    as [[]|] eqn:Hcmp.
  - reflexivity.
  - by rewrite Hcmp.
  - reflexivity.
  - destruct y as [[]|[]| |[] m e]; done.
Qed.

(** The delay argument has a floor: for every finite interval above zero,
    however small, the Number handed to [setInterval] is not NaN and
    compares [>= 10000]; it is [+Infinity] when the product overflows.
    What the window does with a delay is not part of the statement. *)
Theorem delay_argument_at_least_10000 v :
  isFinite v = true -> gt v (of_Z 0) = true ->
  le (of_Z 10000) (period_ms v) = true /\ period_ms v <> NaN.
Proof.
  intros Hfin Hgt.
  assert (le (of_Z 10000) (period_ms v) = true) as Hfloor; [|split; [done|]].
  2: { intros Hnan. rewrite Hnan in Hfloor. vm_compute in Hfloor. done. }
  assert (nonnegative v /\ v <> S754_zero false /\ v <> Infinity)
    as (Hv & Hnz & Hninf).
  { destruct v as [[]|[]| |[] m e]; try discriminate; done. }
  apply Math_max_ten_seconds, Math_round_nonnegative.
  assert (nonnegative (of_Z 60) /\ nonnegative (of_Z 1000)) as [H60 H1000]
    by (split; apply of_Z_nonnegative; lia).
  assert (of_Z 60 <> S754_zero false /\ of_Z 60 <> Infinity) as [? ?]
    by (split; vm_compute; discriminate).
  assert (of_Z 1000 <> S754_zero false /\ of_Z 1000 <> Infinity) as [? ?]
    by (split; vm_compute; discriminate).
  apply mul_nonnegative; auto.
  apply mul_nonnegative; auto.
Qed.

Lemma delay_argument_at_least_10000_witness :
  valid_binary prec emax tiny_interval = true /\
  le (of_Z 10000) (period_ms tiny_interval) = true.
Proof.
  split; [reflexivity|].
  apply (delay_argument_at_least_10000 tiny_interval); vm_compute; reflexivity.
Defined.

Lemma reschedule_fields h w :
  timers_consistent w ->
  let v := intervalMinutes (settings w) in
  if negb (isFinite v) || le v (of_Z 0)
  then timers (reschedule h w).2 = ∅ /\
       autoIntervalHandle (reschedule h w).2 = None /\
       registered (reschedule h w).2 = registered w /\
       next_handle (reschedule h w).2 = next_handle w
  else timers (reschedule h w).2 = {[ next_handle w := period_ms v ]} /\
       autoIntervalHandle (reschedule h w).2 = Some (next_handle w) /\
       registered (reschedule h w).2 = registered w ++ [next_handle w] /\
       next_handle (reschedule h w).2 = S (next_handle w).
Proof.
  intros Hcons v.
  rewrite (reschedule_unfold h w Hcons). cbv zeta. fold v.
  unfold timers_consistent in Hcons.
  destruct (negb (isFinite v) || le v (of_Z 0)); cbn [fst snd].
  - destruct (autoIntervalHandle w) eqn:Hh; simpl; auto.
  - destruct (autoIntervalHandle w) eqn:Hh; simpl.
    + by rewrite insert_empty.
    + by rewrite Hcons, insert_empty.
Qed.

Lemma enabled_interval v :
  isFinite v = true -> gt v (of_Z 0) = true ->
  negb (isFinite v) || le v (of_Z 0) = false.
Proof.
  intros Hfin Hgt. rewrite Hfin. simpl.
  by apply (finite_positive v Hfin).
Qed.

Lemma reschedule_keeps_consistent h w :
  timers_consistent w -> timers_consistent (reschedule h w).2.
Proof.
  intros Hcons.
  pose proof (reschedule_fields h w Hcons) as Hfields. cbv zeta in Hfields.
  unfold timers_consistent.
  destruct (negb (isFinite _) || le _ _).
  - destruct Hfields as (Ht & -> & _). exact Ht.
  - destruct Hfields as (-> & -> & _).
    intros k. rewrite dom_singleton_L. set_solver.
Qed.

(** After [reschedule], every timer of the window has been registered
    with the host, which clears registered timers when the plugin is
    unloaded: no timer of the plugin outlives it. *)
Theorem reschedule_registers_its_timer h w :
  timers_consistent w -> timers_registered (reschedule h w).2.
Proof.
  intros Hcons k.
  pose proof (reschedule_fields h w Hcons) as Hfields. cbv zeta in Hfields.
  destruct (negb (isFinite _) || le _ _).
  - destruct Hfields as (-> & _). set_solver.
  - destruct Hfields as (-> & _ & -> & _).
    rewrite dom_singleton_L. set_solver.
Qed.

Lemma reschedule_registers_its_timer_witness :
  timers_consistent initial_world /\
  timers_registered (reschedule healthy_host initial_world).2.
Proof.
  assert (timers_consistent initial_world) as Hcons by reflexivity.
  split; [exact Hcons|].
  exact (reschedule_registers_its_timer healthy_host initial_world Hcons).
Defined.

(** Rescheduling again with an unchanged positive interval replaces the
    timer by one with the same delay under a fresh handle: there is never
    more than one timer, and the cancelled handle stays in the list of
    registered handles. *)
Theorem reschedule_twice_replaces_timer h h' w :
  timers_consistent w ->
  isFinite (intervalMinutes (settings w)) = true ->
  gt (intervalMinutes (settings w)) (of_Z 0) = true ->
  timers (reschedule h w).2 =
    {[ next_handle w := period_ms (intervalMinutes (settings w)) ]} /\
  timers (reschedule h' (reschedule h w).2).2 =
    {[ S (next_handle w) := period_ms (intervalMinutes (settings w)) ]} /\
  autoIntervalHandle (reschedule h' (reschedule h w).2).2 =
    Some (S (next_handle w)) /\
  registered (reschedule h' (reschedule h w).2).2 =
    registered w ++ [next_handle w; S (next_handle w)].
Proof.
  intros Hcons Hfin Hgt.
  pose proof (reschedule_fields h w Hcons) as H1. cbv zeta in H1.
  rewrite (enabled_interval _ Hfin Hgt) in H1.
  destruct H1 as (Ht1 & Ha1 & Hr1 & Hn1).
  pose proof (reschedule_keeps_consistent h w Hcons) as Hcons1.
  pose proof (reschedule_fields h' _ Hcons1) as H2. cbv zeta in H2.
  rewrite (proj1 (reschedule_frame h w)) in H2.
  rewrite (enabled_interval _ Hfin Hgt) in H2.
  destruct H2 as (Ht2 & Ha2 & Hr2 & Hn2).
  rewrite Ht1, Ht2, Ha2, Hr2, Hr1, Hn1.
  by rewrite <- app_assoc.
Qed.

Lemma reschedule_twice_replaces_timer_witness :
  timers (reschedule healthy_host
            (reschedule healthy_host initial_world).2).2 =
    {[ 2%nat := of_Z 300000 ]} /\
  registered (reschedule healthy_host
                (reschedule healthy_host initial_world).2).2 =
    [1%nat; 2%nat].
Proof.
  destruct (reschedule_twice_replaces_timer healthy_host healthy_host
              initial_world) as (_ & Htimers & _ & Hregistered).
  - reflexivity.
  - reflexivity.
  - vm_compute. reflexivity.
  - split; [exact Htimers | exact Hregistered].
Defined.

(** ** Further properties of the settings tab and of loading *)

(** What is typed in the interval field decides the timer at once (the
    host having stored the value): text that parses to NaN, to an
    infinity, to a negative number or to zero leaves no timer at all, and
    text that parses to a finite number above zero leaves exactly one
    timer, with the delay computed from that number. *)
Theorem interval_field_controls_timer
    (parseFloat : jsstring -> jsnumber) value h w :
  saveData_failure h = None ->
  timers_consistent w ->
  let n := parseFloat value in
  (isFinite n = false \/ le n (of_Z 0) = true ->
     timers (onChange parseFloat value h w).2 = ∅ /\
     autoIntervalHandle (onChange parseFloat value h w).2 = None) /\
  (isFinite n = true -> gt n (of_Z 0) = true ->
     timers (onChange parseFloat value h w).2 =
       {[ next_handle w := period_ms n ]} /\
     autoIntervalHandle (onChange parseFloat value h w).2 =
       Some (next_handle w)).
Proof.
  intros Hsave Hcons n.
  rewrite (onChange_saved parseFloat value h w Hsave). fold n.
  set (w1 := set_persisted _ _).
  assert (timers_consistent w1) as Hcons1 by exact Hcons.
  pose proof (reschedule_fields h w1 Hcons1) as Hfields.
  cbv zeta in Hfields.
  change (intervalMinutes (settings w1)) with (coerce_interval n) in Hfields.
  change (next_handle w1) with (next_handle w) in Hfields.
  split.
  - intros Hoff.
    assert (negb (isFinite (coerce_interval n)) ||
            le (coerce_interval n) (of_Z 0) = true) as Hcond.
    { unfold coerce_interval.
      destruct (isFinite n) eqn:Hfin, (ge n (of_Z 0)) eqn:Hge;
        cbn [andb]; try reflexivity.
      destruct Hoff as [?|Hle]; [discriminate|].
      by rewrite Hfin, Hle. }
    rewrite Hcond in Hfields. by destruct Hfields as (? & ? & _).
  - intros Hfin Hgt.
    assert (coerce_interval n = n) as Hn.
    { unfold coerce_interval. rewrite Hfin. simpl.
      destruct n as [[]|[]| |[] m e]; try discriminate; reflexivity. }
    rewrite Hn, (enabled_interval n Hfin Hgt) in Hfields.
    by destruct Hfields as (? & ? & _).
Qed.

Lemma interval_field_controls_timer_witness :
  timers (onChange sample_parseFloat (lit "abc") healthy_host
            (reschedule healthy_host initial_world).2).2 = ∅.
Proof.
  refine (proj1 (proj1 (interval_field_controls_timer sample_parseFloat
                          (lit "abc") healthy_host
                          (reschedule healthy_host initial_world).2
                          eq_refl _) _)).
  - apply reschedule_keeps_consistent. reflexivity.
  - left. vm_compute. reflexivity.
Defined.

(** When the host fails to store the settings, the change handler throws;
    the new interval is already in memory, but nothing is persisted and the
    timers stay as they were: the old delay keeps running until the next
    successful change. *)
Theorem save_rejection_leaves_timer_stale
    (parseFloat : jsstring -> jsnumber) value h w err :
  saveData_failure h = Some err ->
  (onChange parseFloat value h w).1 = Throw (ErrorValue err) /\
  intervalMinutes (settings (onChange parseFloat value h w).2) =
    coerce_interval (parseFloat value) /\
  persisted (onChange parseFloat value h w).2 = persisted w /\
  timers (onChange parseFloat value h w).2 = timers w /\
  autoIntervalHandle (onChange parseFloat value h w).2 = autoIntervalHandle w.
Proof.
  intros Hsave.
  by rewrite (onChange_save_rejected parseFloat value h w err Hsave).
Qed.

Lemma save_rejection_leaves_timer_stale_witness :
  timers (onChange sample_parseFloat (lit "abc") read_only_host
            (reschedule read_only_host initial_world).2).2 =
    timers (reschedule read_only_host initial_world).2.
Proof.
  exact (proj1 (proj2 (proj2 (proj2
           (save_rejection_leaves_timer_stale sample_parseFloat (lit "abc")
              read_only_host (reschedule read_only_host initial_world).2
              command_failed eq_refl))))).
Defined.

Lemma reschedule_completes h w : (reschedule h w).1 = Normal tt.
Proof.
  unfold reschedule, mbind, M_bind, gets, modify, clearInterval, setInterval,
    registerInterval, mret, M_ret.
  destruct (autoIntervalHandle w); simpl;
    destruct (negb (isFinite _) || le _ _); reflexivity.
Qed.

(** The start of an activation agrees with the whole of it: when the
    routine ends before any [await] the two coincide, and when it is left
    suspended on the verify step the flag is set, the verify command is the
    one subprocess started and nothing has been shown yet. *)
Lemma commitAndPush_until_await_spec h w :
  isRunning w = false ->
  match adapter h with
  | FileSystemAdapter (c :: cwd) =>
      commitAndPush_until_await h w =
        (Normal (Some (c :: cwd)),
         add_exec_call verify_command (c :: cwd) (set_isRunning true w))
  | _ =>
      commitAndPush_until_await h w =
        (Normal None,
         set_isRunning false
           (add_notice (lit "Available on desktop only")
              (set_isRunning true w))) /\
      commitAndPush h w =
        (Normal tt,
         set_isRunning false
           (add_notice (lit "Available on desktop only")
              (set_isRunning true w)))
  end.
Proof.
  intros Hidle.
  destruct (adapter h) as [[|c cwd]|] eqn:Ha.
  - split.
    + unfold commitAndPush_until_await, mbind, M_bind, gets, modify,
        getVaultPath, asks, Notice, mret, M_ret.
      by rewrite Hidle, Ha.
    + rewrite (commitAndPush_idle h w Hidle). unfold try_catch.
      by rewrite cycle_desktop_only by auto.
  - unfold commitAndPush_until_await, mbind, M_bind, gets, modify,
      getVaultPath, asks, Notice, mret, M_ret.
    by rewrite Hidle, Ha.
  - split.
    + unfold commitAndPush_until_await, mbind, M_bind, gets, modify,
        getVaultPath, asks, Notice, mret, M_ret.
      by rewrite Hidle, Ha.
    + rewrite (commitAndPush_idle h w Hidle). unfold try_catch.
      by rewrite cycle_desktop_only by auto.
Qed.

Lemma commitAndPush_until_await_completes h w :
  exists r, (commitAndPush_until_await h w).1 = Normal r.
Proof.
  unfold commitAndPush_until_await, mbind, M_bind, gets, modify,
    getVaultPath, asks, Notice, mret, M_ret.
  destruct (isRunning w); [by eexists|].
  destruct (adapter h) as [[|c cwd]|]; by eexists.
Qed.

Lemma onload_unfold data h w :
  onload (Normal data) h w =
    (Normal tt,
     (commitAndPush_until_await h
        (reschedule h (set_settings (merged_settings data) w)).2).2).
Proof.
  pose proof (reschedule_completes h (set_settings (merged_settings data) w))
    as Hres.
  unfold onload, loadSettings, addRibbonIcon, addSettingTab, mbind, M_bind,
    mret, M_ret.
  destruct (reschedule h _) as [c w1]. simpl in Hres. subst c. cbn [snd].
  destruct (commitAndPush_until_await_completes h w1) as [r Hr].
  destruct (commitAndPush_until_await h w1) as [c w2]. simpl in Hr.
  by subst c.
Qed.

(** Loading the plugin, for stored data whose [intervalMinutes], if any, is
    a Number.  That value replaces the default of five minutes without
    being validated, and the timer is set from it (none unless it is a
    finite number above zero).  When [onload] settles, the first cycle has
    only been started: on a desktop vault the flag is set and the verify
    command is the one subprocess started, nothing shown; without a vault
    path the desktop-only notice has been shown, no subprocess started and
    the flag cleared.  [onload] does not throw. *)
Theorem onload_starts_scheduler_and_first_step data h w :
  isRunning w = false ->
  timers_consistent w ->
  let v := intervalMinutes (merged_settings data) in
  (onload (Normal data) h w).1 = Normal tt /\
  settings (onload (Normal data) h w).2 = merged_settings data /\
  (data = None \/ data = Some {| stored_intervalMinutes := None |} ->
     v = of_Z 5) /\
  (forall x, data = Some {| stored_intervalMinutes := Some x |} -> v = x) /\
  (isFinite v = false \/ le v (of_Z 0) = true ->
     timers (onload (Normal data) h w).2 = ∅) /\
  (isFinite v = true -> gt v (of_Z 0) = true ->
     timers (onload (Normal data) h w).2 =
       {[ next_handle w := period_ms v ]}) /\
  timers_consistent (onload (Normal data) h w).2 /\
  (forall cwd,
     adapter h = FileSystemAdapter cwd -> cwd <> [] ->
     isRunning (onload (Normal data) h w).2 = true /\
     exec_calls (onload (Normal data) h w).2 =
       exec_calls w ++ [(verify_command, cwd)] /\
     notices (onload (Normal data) h w).2 = notices w) /\
  (adapter h = OtherAdapter \/ adapter h = FileSystemAdapter [] ->
     isRunning (onload (Normal data) h w).2 = false /\
     exec_calls (onload (Normal data) h w).2 = exec_calls w /\
     notices (onload (Normal data) h w).2 =
       notices w ++ [lit "Available on desktop only"]).
Proof.
  intros Hidle Hcons v.
  rewrite onload_unfold.
  set (w0 := set_settings (merged_settings data) w).
  assert (timers_consistent w0) as Hcons0 by exact Hcons.
  pose proof (reschedule_frame h w0) as (Hs1 & _ & Hr1).
  pose proof (reschedule_keeps_consistent h w0 Hcons0) as Hcons1.
  pose proof (reschedule_fields h w0 Hcons0) as Hfields.
  cbv zeta in Hfields.
  change (intervalMinutes (settings w0)) with v in Hfields.
  change (next_handle w0) with (next_handle w) in Hfields.
  assert (exec_calls (reschedule h w0).2 = exec_calls w /\
          notices (reschedule h w0).2 = notices w) as (He1 & Hn1).
  { unfold reschedule, mbind, M_bind, gets, modify, clearInterval,
      setInterval, registerInterval, mret, M_ret.
    destruct (autoIntervalHandle w0); simpl;
      destruct (negb (isFinite _) || le _ _); done. }
  set (w1 := (reschedule h w0).2) in *.
  assert (isRunning w1 = false) as Hidle1 by (rewrite Hr1; exact Hidle).
  pose proof (commitAndPush_until_await_spec h w1 Hidle1) as Hstart.
  set (w2 := (commitAndPush_until_await h w1).2) in *.
  assert (settings w2 = settings w1 /\ timers w2 = timers w1 /\
          autoIntervalHandle w2 = autoIntervalHandle w1) as (Hs2 & Ht2 & Ha2).
  { subst w2. destruct (adapter h) as [[|c cwd]|];
      [destruct Hstart as [-> _] | rewrite Hstart | destruct Hstart as [-> _]];
      done. }
  cbn [fst snd].
  split; [done|]. split; [by rewrite Hs2, Hs1|].
  split; [by intros [-> | ->]|].
  split; [by intros x ->|].
  split; [|split; [|split; [|split]]].
  - intros Hoff. rewrite Ht2.
    assert (negb (isFinite v) || le v (of_Z 0) = true) as Hcond.
    { destruct Hoff as [-> | ->]; [done|]. by rewrite orb_true_r. }
    rewrite Hcond in Hfields. by destruct Hfields as (? & _).
  - intros Hfin Hgt. rewrite Ht2.
    rewrite (enabled_interval v Hfin Hgt) in Hfields.
    by destruct Hfields as (? & _).
  - unfold timers_consistent. rewrite Ht2, Ha2. exact Hcons1.
  - intros cwd Ha Hc. subst w2. rewrite Ha in Hstart.
    destruct cwd as [|c cwd]; [done|]. rewrite Hstart. simpl.
    by rewrite He1, Hn1.
  - intros Hnone. subst w2.
    assert (commitAndPush_until_await h w1 =
              (Normal None,
               set_isRunning false
                 (add_notice (lit "Available on desktop only")
                    (set_isRunning true w1)))) as ->.
    { destruct Hnone as [Ha | Ha]; rewrite Ha in Hstart; apply Hstart. }
    simpl. by rewrite He1, Hn1.
Qed.

Lemma onload_starts_scheduler_and_first_step_witness :
  timers (onload (Normal (Some negative_blob)) healthy_host initial_world).2
    = ∅ /\
  timers (onload (Normal None) healthy_host initial_world).2 =
    {[ 1%nat := of_Z 300000 ]} /\
  isRunning (onload (Normal None) healthy_host initial_world).2 = true /\
  exec_calls (onload (Normal None) healthy_host initial_world).2 =
    [(verify_command, lit "/vault")].
Proof.
  pose proof (onload_starts_scheduler_and_first_step (Some negative_blob)
                healthy_host initial_world eq_refl eq_refl)
    as (_ & _ & _ & _ & Hoff & _).
  pose proof (onload_starts_scheduler_and_first_step None
                healthy_host initial_world eq_refl eq_refl)
    as (_ & _ & _ & _ & _ & Hon & _ & Hdesktop & _).
  split; [apply Hoff; right; vm_compute; reflexivity|].
  split; [apply Hon; vm_compute; reflexivity|].
  destruct (Hdesktop (lit "/vault") eq_refl ltac:(discriminate))
    as (Hflag & Hexec & _).
  split; [exact Hflag | exact Hexec].
Defined.

(** When the host cannot load the stored data, [onload] throws at once:
    the settings keep their value, no timer is installed and no cycle is
    started. *)
Lemma onload_load_rejected e h w :
  (onload (Throw e) h w).1 = Throw e /\
  settings (onload (Throw e) h w).2 = settings w /\
  timers (onload (Throw e) h w).2 = timers w /\
  exec_calls (onload (Throw e) h w).2 = exec_calls w /\
  notices (onload (Throw e) h w).2 = notices w.
Proof. done. Qed.
